(** * A sequential model of the TCP chat server (src/server.py)

    The server keeps three dictionaries under one lock ([clients],
    [usernames], [last_activity]) and talks to its peers through sockets.
    Every method of [ChatServer] that touches the dictionaries is embedded
    below as a computation in a state-and-exception monad over a [World]
    that holds the dictionaries, the state of the sockets, the record of
    every [sendall] call and the server console.

    Conventions.
    - A socket object is a natural number (its identity).
    - [time.time()] readings are integers (clock ticks); the clock is an
      input of the model.
    - A Python [str] is a [string]; a character is a code point below 256.
    - A Python [dict] is an insertion-ordered association list.
    - Each method runs to completion from an arbitrary world: most theorems
      speak about one operation, or a sequence of operations.  A
      [with self.lock:] block is marked by [with_lock].  Where the lock
      matters (the login), the code is also given as a [thread], cut into
      atomic steps at the lock, and run under every interleaving. *)

From Stdlib Require Import Bool Arith ZArith Lia List Ascii String.
From Stdlib Require Import Strings.Byte.
Import ListNotations.

Set Implicit Arguments.
Open Scope string_scope.
Open Scope list_scope.

(* ================================================================== *)
(** ** Python strings *)

Module PyStr.

Definition LF : ascii := "010"%char.
Definition SP : ascii := " "%char.

(** [str.isspace] on one character, for the code points below 256:
    TAB..CR, FS..US, SPACE, NEL and NBSP. *)
Definition isspace (c : ascii) : bool :=
  let n := nat_of_ascii c in
  (((9 <=? n) && (n <=? 13)) || ((28 <=? n) && (n <=? 31))
   || (n =? 32) || (n =? 133) || (n =? 160))%nat.

Fixpoint lstrip (s : string) : string :=
  match s with
  | EmptyString => EmptyString
  | String c s' => if isspace c then lstrip s' else s
  end.

Fixpoint rstrip (s : string) : string :=
  match s with
  | EmptyString => EmptyString
  | String c s' =>
      match rstrip s' with
      | EmptyString => if isspace c then EmptyString else String c EmptyString
      | r => String c r
      end
  end.

(** [s.strip()] *)
Definition strip (s : string) : string := rstrip (lstrip s).

(** [s.startswith(p)] *)
Fixpoint startswith (p s : string) : bool :=
  match p, s with
  | EmptyString, _ => true
  | String a p', String b s' => Ascii.eqb a b && startswith p' s'
  | String _ _, EmptyString => false
  end.

(** [s[n:]] *)
Fixpoint slice_from (n : nat) (s : string) : string :=
  match n, s with
  | O, _ => s
  | S n', String _ s' => slice_from n' s'
  | S _, EmptyString => EmptyString
  end.

(** [bool(s)]: a string is true when it is not empty. *)
Definition truthy (s : string) : bool :=
  match s with EmptyString => false | String _ _ => true end.

(** [sep in s] together with [s.split(sep, 1)]: the text before and after
    the first [sep], when there is one. *)
Fixpoint split_once (sep : ascii) (s : string) : option (string * string) :=
  match s with
  | EmptyString => None
  | String c s' =>
      if Ascii.eqb c sep then Some (EmptyString, s')
      else match split_once sep s' with
           | Some (a, b) => Some (String c a, b)
           | None => None
           end
  end.

(** [s.split(sep, 1)] as the list Python returns: one or two parts. *)
Definition split1 (sep : ascii) (s : string) : list string :=
  match split_once sep s with
  | Some (a, b) => [a; b]
  | None => [s]
  end.

(** All the complete lines of a buffer and what is left after the last
    line feed: the values [line] takes in
    [while '\n' in buffer: line, buffer = buffer.split('\n', 1)]
    and the final [buffer]. *)
Fixpoint split_lines (s : string) : list string * string :=
  match s with
  | EmptyString => ([], EmptyString)
  | String c s' =>
      let (ls, rest) := split_lines s' in
      if Ascii.eqb c LF then (EmptyString :: ls, rest)
      else match ls with
           | [] => ([], String c rest)
           | l :: ls' => (String c l :: ls', rest)
           end
  end.

End PyStr.
Import PyStr.

(* ================================================================== *)
(** ** Python dictionaries *)

Class EqDec (K : Type) := {
  eqb : K -> K -> bool;
  eqb_spec : forall a b : K, reflect (a = b) (eqb a b)
}.

#[export] Instance nat_EqDec : EqDec nat :=
  {| eqb := Nat.eqb; eqb_spec := Nat.eqb_spec |}.

#[export] Instance string_EqDec : EqDec string :=
  {| eqb := String.eqb; eqb_spec := String.eqb_spec |}.

Module Dict.
Section Defs.
Context {K V : Type} `{EqDec K}.

(** Entries in insertion order, every key once. *)
Definition t := list (K * V).

Definition empty : t := [].

(** [d.get(k)] *)
Fixpoint get (k : K) (d : t) : option V :=
  match d with
  | [] => None
  | (k', v) :: d' => if eqb k k' then Some v else get k d'
  end.

(** [k in d] *)
Definition mem (k : K) (d : t) : bool :=
  match get k d with Some _ => true | None => false end.

(** [d[k] = v]: a present key keeps its place, a new key goes last. *)
Fixpoint set (k : K) (v : V) (d : t) : t :=
  match d with
  | [] => [(k, v)]
  | (k', v') :: d' =>
      if eqb k k' then (k', v) :: d' else (k', v') :: set k v d'
  end.

(** [del d[k]], for a key that is present; nothing otherwise (the server
    guards every [del] with a membership test). *)
Fixpoint del (k : K) (d : t) : t :=
  match d with
  | [] => []
  | (k', v') :: d' => if eqb k k' then d' else (k', v') :: del k d'
  end.

(** [list(d.keys())] and [list(d.items())] *)
Definition keys (d : t) : list K := map fst d.
Definition items (d : t) : list (K * V) := d.

(** What every dictionary built by [set] and [del] satisfies. *)
Definition wf (d : t) : Prop := NoDup (keys d).
End Defs.
Arguments t : clear implicits.
End Dict.

(** Membership of a socket or a name in a plain list. *)
Fixpoint memb {K} `{EqDec K} (k : K) (l : list K) : bool :=
  match l with
  | [] => false
  | x :: l' => eqb k x || memb k l'
  end.

(* ================================================================== *)
(** ** The world: server fields, sockets, wire and console *)

Definition Conn := nat.
Definition Timestamp := Z.

(** The exceptions the modelled code can meet. *)
Inductive exn :=
| BrokenPipeError        (* sendall on a connection the peer has left *)
| BadFileDescriptor      (* OSError: the socket was closed on our side *)
| ConnectionResetError
| socket_timeout
| OtherError (msg : string).

(** [str(e)] *)
Definition exn_str (e : exn) : string :=
  match e with
  | BrokenPipeError => "[Errno 32] Broken pipe"
  | BadFileDescriptor => "[Errno 9] Bad file descriptor"
  | ConnectionResetError => "[Errno 104] Connection reset by peer"
  | socket_timeout => "timed out"
  | OtherError msg => msg
  end.

(** One call of [sendall]: where to, what, and whether it went through. *)
Record packet := Packet { dst : Conn; payload : string; delivered : bool }.

Record World := mkWorld {
  clients : Dict.t Conn string;        (* self.clients: socket -> username *)
  usernames : Dict.t string Conn;      (* self.usernames: username -> socket *)
  last_activity : Dict.t Conn Timestamp;    (* self.last_activity *)
  idle_timeout : Z;                    (* self.idle_timeout *)
  closed : list Conn;                  (* sockets the server has closed *)
  broken : list Conn;                  (* sockets whose peer is gone *)
  wire : list packet;                  (* every sendall, oldest first *)
  console : list string                (* lines printed by the server *)
}.

Definition set_clients f (w : World) : World :=
  mkWorld (f (clients w)) (usernames w) (last_activity w) (idle_timeout w)
          (closed w) (broken w) (wire w) (console w).
Definition set_usernames f (w : World) : World :=
  mkWorld (clients w) (f (usernames w)) (last_activity w) (idle_timeout w)
          (closed w) (broken w) (wire w) (console w).
Definition set_last_activity f (w : World) : World :=
  mkWorld (clients w) (usernames w) (f (last_activity w)) (idle_timeout w)
          (closed w) (broken w) (wire w) (console w).
Definition set_closed f (w : World) : World :=
  mkWorld (clients w) (usernames w) (last_activity w) (idle_timeout w)
          (f (closed w)) (broken w) (wire w) (console w).
Definition set_wire f (w : World) : World :=
  mkWorld (clients w) (usernames w) (last_activity w) (idle_timeout w)
          (closed w) (broken w) (f (wire w)) (console w).
Definition set_console f (w : World) : World :=
  mkWorld (clients w) (usernames w) (last_activity w) (idle_timeout w)
          (closed w) (broken w) (wire w) (f (console w)).

(** The registry: the three dictionaries the lock protects. *)
Definition registry (w : World) :=
  (clients w, usernames w, last_activity w).

(** A socket on which [sendall] goes through. *)
Definition sock_ok (w : World) (c : Conn) : bool :=
  negb (memb c (closed w)) && negb (memb c (broken w)).

(** What a peer has been sent so far, and what of it arrived. *)
Definition sent_to (c : Conn) (w : World) : list string :=
  map payload (filter (fun p => Nat.eqb (dst p) c) (wire w)).
Definition inbox (c : Conn) (w : World) : list string :=
  map payload (filter (fun p => Nat.eqb (dst p) c && delivered p) (wire w)).

(* ================================================================== *)
(** ** State and exceptions *)

Inductive outcome (A : Type) :=
| Normal (a : A)
| Raised (e : exn).
Arguments Normal {A} a.
Arguments Raised {A} e.

Definition M (A : Type) : Type := World -> outcome A * World.

Definition ret {A} (a : A) : M A := fun w => (Normal a, w).
Definition raise {A} (e : exn) : M A := fun w => (Raised e, w).
Definition bind {A B} (m : M A) (k : A -> M B) : M B :=
  fun w => match m w with
           | (Normal a, w') => k a w'
           | (Raised e, w') => (Raised e, w')
           end.
(** [try: m  except Exception as e: h e] *)
Definition try_except {A} (m : M A) (h : exn -> M A) : M A :=
  fun w => match m w with
           | (Normal a, w') => (Normal a, w')
           | (Raised e, w') => h e w'
           end.
Definition gets {A} (f : World -> A) : M A := fun w => (Normal (f w), w).
Definition modify (f : World -> World) : M unit := fun w => (Normal tt, f w).
(** [with self.lock: m].  One method run from start to end owns the world,
    so in [M] the lock only marks the block; where the lock matters, the
    section on threads cuts a method into atomic steps at these blocks and
    runs the steps of several threads in any order. *)
Definition with_lock {A} (m : M A) : M A := m.

Declare Scope py_scope.
Delimit Scope py_scope with py.
Notation "x <- m ;; k" := (bind m (fun x => k))
  (at level 100, m at next level, right associativity) : py_scope.
Notation "m ;; k" := (bind m (fun _ => k))
  (at level 100, right associativity) : py_scope.
Open Scope py_scope.

(** [for x in l: body x] *)
Fixpoint for_each {X} (l : list X) (body : X -> M unit) : M unit :=
  match l with
  | [] => ret tt
  | x :: l' => body x ;; for_each l' body
  end.

Definition print (s : string) : M unit :=
  modify (set_console (fun c => c ++ [s])).

(** [conn.sendall(data)] *)
Definition sendall (conn : Conn) (data : string) : M unit :=
  fun w =>
    if memb conn (closed w) then
      (Raised BadFileDescriptor,
       set_wire (fun l => l ++ [Packet conn data false]) w)
    else if memb conn (broken w) then
      (Raised BrokenPipeError,
       set_wire (fun l => l ++ [Packet conn data false]) w)
    else
      (Normal tt, set_wire (fun l => l ++ [Packet conn data true]) w).

(** [conn.close()] *)
Definition close (conn : Conn) : M unit :=
  modify (set_closed (fun l => conn :: l)).

(* ================================================================== *)
(** ** ChatServer: routing *)

(** [_send] (lines 264-269) *)
Definition _send (conn : Conn) (message : string) : M unit :=
  try_except
    (sendall conn (message ++ String LF ""))
    (fun e => print ("[SERVER] Error sending message: " ++ exn_str e)).

(** [conn != exclude], with [exclude] possibly [None] *)
Definition differs (conn : Conn) (exclude : option Conn) : bool :=
  match exclude with
  | Some x => negb (Nat.eqb conn x)
  | None => true
  end.

(** [_broadcast] (lines 271-279) *)
Definition _broadcast (message : string) (exclude : option Conn) : M unit :=
  with_lock (
    conns <- gets (fun w => Dict.keys (clients w)) ;;
    for_each conns (fun conn =>
      if differs conn exclude then
        try_except
          (sendall conn (message ++ String LF ""))
          (fun e => print ("[SERVER] Error broadcasting to client: "
                           ++ exn_str e))
      else ret tt)).

(** [_send_private] (lines 281-290) *)
Definition _send_private (sender_conn : Conn) (from_user to_user text : string)
  : M unit :=
  target <- with_lock (
      us <- gets usernames ;;
      match Dict.get to_user us with
      | None =>
          _send sender_conn ("ERR user-not-found " ++ to_user) ;;
          ret None                                        (* return *)
      | Some target_conn => ret (Some target_conn)
      end) ;;
  match target with
  | None => ret tt
  | Some target_conn => _send target_conn ("DM " ++ from_user ++ " " ++ text)
  end.

(** [_remove_client] (lines 292-312), the teardown *)
Definition _remove_client (conn : Conn) (username : option string) : M unit :=
  with_lock (
    cs <- gets clients ;;
    (if Dict.mem conn cs then modify (set_clients (Dict.del conn))
     else ret tt) ;;
    us <- gets usernames ;;
    match username with
    | Some u =>
        if truthy u && Dict.mem u us
        then modify (set_usernames (Dict.del u))
        else ret tt
    | None => ret tt
    end ;;
    la <- gets last_activity ;;
    (if Dict.mem conn la then modify (set_last_activity (Dict.del conn))
     else ret tt)) ;;
  try_except (close conn) (fun _ => ret tt) ;;
  match username with
  | Some u =>
      if truthy u then
        print ("[SERVER] User '" ++ u ++ "' disconnected") ;;
        _broadcast ("INFO " ++ u ++ " disconnected") None
      else ret tt
  | None => ret tt
  end.

(** [_process_command] (lines 231-262) *)
Definition _process_command (conn : Conn) (username line : string) : M unit :=
  if startswith "MSG " line then
    let text := strip (slice_from 4 line) in
    if truthy text then
      _broadcast ("MSG " ++ username ++ " " ++ text) (Some conn)
    else ret tt
  else if String.eqb line "WHO" then
    with_lock (
      users <- gets (fun w => Dict.keys (usernames w)) ;;
      for_each users (fun user => _send conn ("USER " ++ user)))
  else if startswith "DM " line then
    let parts := split1 SP (strip (slice_from 3 line)) in
    match parts with
    | target_user :: text :: _ => _send_private conn username target_user text
    | _ => _send conn "ERR invalid-dm-format"
    end
  else if String.eqb line "PING" then
    _send conn "PONG"
  else
    ret tt.

(* ================================================================== *)
(** ** ChatServer: the handler of one connection *)

(** What [conn.recv(1024)] gives on one call: bytes (here already decoded,
    with the clock reading taken right after), the empty read of a closed
    stream, or an exception.  The source decodes each chunk on its own
    ([data.decode('utf-8', errors='ignore')], lines 150 and 190), so
    [decoded] is the text of this chunk alone: the bytes of a character cut
    by the end of the chunk are not in it. *)
Inductive recv_result :=
| RecvData (decoded : string) (now : Timestamp)
| RecvEOF
| RecvRaises (e : exn).

Definition recv (r : recv_result) : M (option (string * Timestamp)) :=
  match r with
  | RecvData d now => ret (Some (d, now))
  | RecvEOF => ret None
  | RecvRaises e => raise e
  end.

(** How one pass of a [while self.running] body ends. *)
Inductive step (A : Type) :=
| Return (a : A)              (* return or break *)
| Next (buffer : string).     (* go round again with this buffer *)
Arguments Return {A} a.
Arguments Next {A} buffer.

(** [with self.lock: self.last_activity[conn] = time.time()] *)
Definition touch (conn : Conn) (now : Timestamp) : M unit :=
  with_lock (modify (set_last_activity (Dict.set conn now))).

(** Lines 200-221: one stripped, non-empty line before login.
    [Some username] is [return username]; [None] goes on with the next
    line. *)
Definition login_line (conn : Conn) (line : string) : M (option string) :=
  if startswith "LOGIN " line then
    let username := strip (slice_from 6 line) in
    if negb (truthy username) then
      _send conn "ERR invalid-username" ;;
      ret None                                            (* continue *)
    else
      bound <- with_lock (
          us <- gets usernames ;;
          if Dict.mem username us then
            _send conn "ERR username-taken" ;;
            ret false                                     (* continue *)
          else
            modify (set_clients (Dict.set conn username)) ;;
            modify (set_usernames (Dict.set username conn)) ;;
            ret true) ;;
      if bound then
        _send conn "OK" ;;
        ret (Some username)
      else ret None
  else
    _send conn "ERR must-login-first" ;;
    ret None.

(** Lines 193-221: the complete lines of the buffer, in turn. *)
Fixpoint login_lines (conn : Conn) (lines : list string) : M (option string) :=
  match lines with
  | [] => ret None
  | raw :: lines' =>
      let line := strip raw in
      if negb (truthy line) then login_lines conn lines'  (* continue *)
      else
        r <- login_line conn line ;;
        match r with
        | Some username => ret (Some username)
        | None => login_lines conn lines'
        end
  end.

(** Lines 180-227: one pass of the login loop. *)
Definition login_iter (conn : Conn) (addr : string) (r : recv_result)
    (buffer : string) : M (step (option string)) :=
  try_except
    (data <- recv r ;;
     match data with
     | None => ret (Return None)
     | Some (d, now) =>
         touch conn now ;;
         let (lines, rest) := split_lines (buffer ++ d) in
         u <- login_lines conn lines ;;
         match u with
         | Some username => ret (Return (Some username))
         | None => ret (Next rest)
         end
     end)
    (fun e =>
       match e with
       | socket_timeout => ret (Next buffer)
       | _ =>
           print ("[SERVER] Login error from " ++ addr ++ ": " ++ exn_str e) ;;
           ret (Return None)
       end).

(** [_handle_login] (lines 175-229).  [inputs] is what the successive
    [recv] calls give; when it runs out the server has stopped running.
    The result carries the inputs not consumed yet. *)
Fixpoint _handle_login (conn : Conn) (addr : string)
    (inputs : list recv_result) (buffer : string)
  : M (option string * list recv_result) :=
  match inputs with
  | [] => ret (None, [])
  | r :: inputs' =>
      s <- login_iter conn addr r buffer ;;
      match s with
      | Return u => ret (u, inputs')
      | Next buffer' => _handle_login conn addr inputs' buffer'
      end
  end.

(** Lines 153-158: the complete lines of the buffer, after login. *)
Fixpoint command_lines (conn : Conn) (username : string) (lines : list string)
  : M unit :=
  match lines with
  | [] => ret tt
  | raw :: lines' =>
      let line := strip raw in
      (if truthy line then _process_command conn username line else ret tt) ;;
      command_lines conn username lines'
  end.

(** Lines 138-167: one pass of the main loop. *)
Definition client_iter (conn : Conn) (username : string) (r : recv_result)
    (buffer : string) : M (step unit) :=
  try_except
    (data <- recv r ;;
     match data with
     | None => ret (Return tt)                            (* break *)
     | Some (d, now) =>
         touch conn now ;;
         let (lines, rest) := split_lines (buffer ++ d) in
         command_lines conn username lines ;;
         ret (Next rest)
     end)
    (fun e =>
       match e with
       | socket_timeout => ret (Next buffer)
       | ConnectionResetError => ret (Return tt)
       | _ =>
           print ("[SERVER] Error receiving from " ++ username ++ ": "
                  ++ exn_str e) ;;
           ret (Return tt)
       end).

Fixpoint client_loop (conn : Conn) (username : string)
    (inputs : list recv_result) (buffer : string) : M unit :=
  match inputs with
  | [] => ret tt
  | r :: inputs' =>
      s <- client_iter conn username r buffer ;;
      match s with
      | Return _ => ret tt
      | Next buffer' => client_loop conn username inputs' buffer'
      end
  end.

(** Lines 118-124: what happens on accept, before the first [recv]. *)
Definition on_accept (conn : Conn) (now : Timestamp) : M unit :=
  touch conn now.

(** [_handle_client] (lines 114-173) *)
Definition _handle_client (conn : Conn) (addr : string) (now : Timestamp)
    (inputs : list recv_result) : M unit :=
  username <- try_except
    (on_accept conn now ;;
     r <- _handle_login conn addr inputs "" ;;
     let (username, inputs') := r in
     match username with
     | Some u =>
         if truthy u then
           print ("[SERVER] User '" ++ u ++ "' logged in from " ++ addr) ;;
           client_loop conn u inputs' "" ;;
           ret username
         else close conn ;; ret username
     | None => close conn ;; ret username
     end)
    (fun e =>
       print ("[SERVER] Error handling client " ++ addr ++ ": " ++ exn_str e) ;;
       ret None) ;;
  _remove_client conn username.                           (* finally *)

(* ================================================================== *)
(** ** ChatServer: the idle reaper *)

(** [current_time - last_time > self.idle_timeout] *)
Definition is_idle (current_time last_time timeout : Z) : bool :=
  (timeout <? current_time - last_time)%Z.

(** Lines 322-326: the sessions to remove, with the name each has now. *)
Definition clients_to_remove (current_time : Timestamp)
  : M (list (Conn * option string)) :=
  with_lock (
    w <- gets (fun w => w) ;;
    ret (map (fun p => (fst p, Dict.get (fst p) (clients w)))
             (filter (fun p => is_idle current_time (snd p) (idle_timeout w))
                     (Dict.items (last_activity w))))).

(** Lines 330-336: the body of the removal loop. *)
Definition evict (p : Conn * option string) : M unit :=
  let (conn, username) := p in
  match username with
  | Some u =>
      if truthy u then
        print ("[SERVER] User '" ++ u ++ "' timed out (idle)") ;;
        try_except (_send conn "ERR idle-timeout") (fun _ => ret tt)
      else ret tt
  | None => ret tt
  end ;;
  _remove_client conn username.

(** Lines 319-336: one cycle of the reaper, at clock reading
    [current_time]. *)
Definition reaper_cycle (current_time : Timestamp) : M unit :=
  l <- clients_to_remove current_time ;;
  for_each l evict.

(** [_check_idle_clients] (lines 314-336): a cycle at each clock
    reading, until the server stops. *)
Fixpoint _check_idle_clients (clock : list Timestamp) : M unit :=
  match clock with
  | [] => ret tt
  | t :: clock' => reaper_cycle t ;; _check_idle_clients clock'
  end.

(** Running a computation for its final world. *)
Definition exec {A} (m : M A) (w : World) : World := snd (m w).
Definition result {A} (m : M A) (w : World) : outcome A := fst (m w).

(** A fresh server with the given idle timeout. *)
Definition init (timeout : Z) : World :=
  mkWorld Dict.empty Dict.empty Dict.empty timeout [] [] [] [].

(* ================================================================== *)
(** ** Vocabulary of the statements *)

(** A protocol line as it goes on the wire: [message + '\n']. *)
Definition wire_line (message : string) : string := message ++ String LF "".

(** A world for the examples: alice on socket 1 (last heard of at time 0)
    and bob on socket 2 (last heard of at time 50), both logged in; the
    idle timeout is 60. *)
Definition lobby : World :=
  mkWorld [(1, "alice"); (2, "bob")] [("alice", 1); ("bob", 2)]
          [(1, 0%Z); (2, 50%Z)] 60%Z [] [] [] [].

(** The same, after alice's peer has gone away. *)
Definition lobby_alice_gone : World :=
  mkWorld [(1, "alice"); (2, "bob")] [("alice", 1); ("bob", 2)]
          [(1, 0%Z); (2, 50%Z)] 60%Z [] [1] [] [].

(** The same as [lobby], with a third connection accepted at time 0 that
    has not logged in. *)
Definition lobby_and_guest : World :=
  mkWorld [(1, "alice"); (2, "bob")] [("alice", 1); ("bob", 2)]
          [(1, 0%Z); (2, 50%Z); (3, 0%Z)] 60%Z [] [] [] [].

(** Everything in the world but the wire and the console. *)
Definition server_state (w : World) :=
  (clients w, usernames w, last_activity w, idle_timeout w, closed w, broken w).

(** [sends w w' ps]: from [w] to [w'] the packets [ps] were handed to
    [sendall], in this order, and nothing else changed but the console. *)
Definition sends (w w' : World) (ps : list packet) : Prop :=
  server_state w' = server_state w /\ wire w' = wire w ++ ps.

(** The exception [sendall] raises on a socket that is not usable. *)
Definition errno (w : World) (conn : Conn) : exn :=
  if memb conn (closed w) then BadFileDescriptor else BrokenPipeError.

(** The packets handed to [sendall] between two worlds. *)
Definition since (w w' : World) : list packet :=
  skipn (List.length (wire w)) (wire w').

(** The world after [_send]: the packet is on the wire, marked as it
    went; a failure leaves one line on the console. *)
Definition after_send (conn : Conn) (message : string) (w : World) : World :=
  let w1 := set_wire (fun l => l ++ [Packet conn (message ++ String LF "")
                                       (sock_ok w conn)]) w in
  if sock_ok w conn then w1
  else set_console
         (fun c => c ++ [("[SERVER] Error sending message: "
                          ++ exn_str (errno w conn))%string]) w1.

(** [username if username else None]: the name the guards
    [if username:] let through. *)
Definition named (username : option string) : option string :=
  match username with
  | Some u => if truthy u then Some u else None
  | None => None
  end.

(** Before login, a run of lines either leaves the registry as it was
    and asks for more, or ends on the first accepted [LOGIN] with exactly
    that name bound and [OK] as the last thing sent. *)
Definition login_post (conn : Conn) (w : World)
    (r : outcome (option string) * World) : Prop :=
  match r with
  | (Normal None, w') => registry w' = registry w
  | (Normal (Some u), w') =>
      truthy u = true
      /\ Dict.mem u (usernames w) = false
      /\ clients w' = Dict.set conn u (clients w)
      /\ usernames w' = Dict.set u conn (usernames w)
      /\ last_activity w' = last_activity w
      /\ exists ps, wire w' = wire w ++ ps ++ [Packet conn ("OK" ++ String LF "")
                                                      (sock_ok w conn)]
  | (Raised _, _) => False
  end.

(** The snapshot of lines 322-326 as a function of the world. *)
Definition idle_sessions (current_time : Timestamp) (w : World)
  : list (Conn * option string) :=
  map (fun p => (fst p, Dict.get (fst p) (clients w)))
      (filter (fun p => is_idle current_time (snd p) (idle_timeout w))
              (Dict.items (last_activity w))).

(** The sessions of a snapshot that pass [if username:], with the name. *)
Fixpoint named_sessions (l : list (Conn * option string))
  : list (Conn * string) :=
  match l with
  | [] => []
  | (c, username) :: l' =>
      match named username with
      | Some u => (c, u) :: named_sessions l'
      | None => named_sessions l'
      end
  end.

(** The idle notice among the packets. *)
Definition is_notice (p : packet) : bool :=
  String.eqb (payload p) (wire_line "ERR idle-timeout").

(** Each dictionary holds a key once.  The theorems that count packets
    assume it; it holds in a fresh server and every step keeps it. *)
Definition registry_wf (w : World) : Prop :=
  Dict.wf (clients w) /\ Dict.wf (usernames w) /\ Dict.wf (last_activity w).

(** The steps the threads of the server take. *)
Inductive op :=
| Accept (conn : Conn) (now : Timestamp)
| LoginRead (conn : Conn) (addr : string) (r : recv_result) (buffer : string)
| ClientRead (conn : Conn) (username : string) (r : recv_result) (buffer : string)
| Teardown (conn : Conn) (username : option string)
| Reap (current_time : Timestamp).

Definition run_op (o : op) : M unit :=
  match o with
  | Accept conn now => on_accept conn now
  | LoginRead conn addr r buffer => login_iter conn addr r buffer ;; ret tt
  | ClientRead conn username r buffer =>
      client_iter conn username r buffer ;; ret tt
  | Teardown conn username => _remove_client conn username
  | Reap current_time => reaper_cycle current_time
  end.

Fixpoint run_ops (os : list op) : M unit :=
  match os with
  | [] => ret tt
  | o :: os' => run_op o ;; run_ops os'
  end.

(* ================================================================== *)
(** ** ChatServer: construction and shutdown *)

(** The fields of [ChatServer] next to the world the handlers work on:
    [self.running] and [self.server_socket] (a socket like the others,
    [None] until [start] creates it). *)
Record Server := mkServer {
  world : World;
  running : bool;
  server_socket : option Conn
}.

(** [__init__] (lines 33-50) *)
Definition new_server (timeout : Z) : Server :=
  mkServer (init timeout) false None.

(** Lines 97-104: under the lock, close every socket in [clients], then
    clear [clients] and [usernames]. *)
Definition close_clients : M unit :=
  with_lock (
    conns <- gets (fun w => Dict.keys (clients w)) ;;
    for_each conns (fun conn =>
      try_except (close conn) (fun _ => ret tt)) ;;
    modify (set_clients (fun _ => Dict.empty)) ;;
    modify (set_usernames (fun _ => Dict.empty))).

(** [stop] (lines 92-112) *)
Definition stop (s : Server) : outcome unit * Server :=
  let body :=
    close_clients ;;
    match server_socket s with
    | Some sock => try_except (close sock) (fun _ => ret tt)
    | None => ret tt
    end ;;
    print "[SERVER] Server stopped." in
  let (o, w') := body (world s) in
  (o, mkServer w' false (server_socket s)).

(* ================================================================== *)
(** ** More vocabulary *)

(** Every name in [clients] is bound in [usernames] to the same socket. *)
Definition consistent (w : World) : Prop :=
  forall (c : Conn) (u : string),
    Dict.get c (clients w) = Some u -> Dict.get u (usernames w) = Some c.

(** The buffer that a list of complete lines and a rest came from. *)
Fixpoint join_lines (lines : list string) (rest : string) : string :=
  match lines with
  | [] => rest
  | l :: lines' => l ++ String LF (join_lines lines' rest)
  end.

(** A string without a line feed. *)
Definition no_LF (s : string) : Prop := split_once LF s = None.

(** What the login loop may send. *)
Definition login_reply (conn : Conn) (p : packet) : Prop :=
  dst p = conn
  /\ (payload p = wire_line "OK"
      \/ payload p = wire_line "ERR username-taken"
      \/ payload p = wire_line "ERR must-login-first").

(** What the login phase of a handler may have done between two worlds:
    it sent replies to its own connection, stamped its own activity, and
    bound the name it returns, if any; nothing else. *)
Definition login_phase (conn : Conn) (w : World) (r : option string)
    (w' : World) : Prop :=
  closed w' = closed w
  /\ broken w' = broken w
  /\ idle_timeout w' = idle_timeout w
  /\ (exists ps, wire w' = wire w ++ ps /\ Forall (login_reply conn) ps)
  /\ (forall c, c <> conn ->
                Dict.get c (last_activity w') = Dict.get c (last_activity w))
  /\ (registry_wf w -> registry_wf w')
  /\ match r with
     | None => clients w' = clients w /\ usernames w' = usernames w
     | Some u =>
         truthy u = true
         /\ clients w' = Dict.set conn u (clients w)
         /\ usernames w' = Dict.set u conn (usernames w)
     end.

(** What the main loop of a handler may have done: commands and stamps of
    its own activity. *)
Definition command_phase (conn : Conn) (w w' : World) : Prop :=
  clients w' = clients w
  /\ usernames w' = usernames w
  /\ closed w' = closed w
  /\ broken w' = broken w
  /\ idle_timeout w' = idle_timeout w
  /\ (forall c, c <> conn ->
                Dict.get c (last_activity w') = Dict.get c (last_activity w))
  /\ (registry_wf w -> registry_wf w').

(* ================================================================== *)
(** ** Threads and the lock *)

(** A thread as the scheduler sees it: finished with a result, or about
    to take one atomic step that changes the world and leaves the rest of
    the thread.  A [with self.lock:] block is one step, since every access
    to the dictionaries is made under that one lock; what a thread does
    outside the lock is cut into steps of its own, between which the other
    threads may run. *)
#[local] Unset Elimination Schemes.
Inductive thread (A : Type) : Type :=
| Finished (a : A)
| Step (atomic : World -> outcome (thread A) * World).
#[local] Set Elimination Schemes.
Arguments Finished {A} a.
Arguments Step {A} atomic.

(** A thread run on its own, with no other thread in between. *)
Fixpoint run_alone {A} (t : thread A) : M A :=
  match t with
  | Finished a => ret a
  | Step atomic =>
      fun w => match atomic w with
               | (Normal t', w') => run_alone t' w'
               | (Raised e, w') => (Raised e, w')
               end
  end.

(** Lines 200-221 as a thread: [login_line] cut where the source takes
    and releases the lock.  The test [username in self.usernames] and the
    two writes sit in one [with self.lock:] block (lines 209-216), so they
    are one step; [self._send(conn, "OK")] (line 218) comes after the lock
    is released and is a step of its own. *)
Definition login_line_thread (conn : Conn) (line : string)
  : thread (option string) :=
  if startswith "LOGIN " line then
    let username := strip (slice_from 6 line) in
    if negb (truthy username) then
      Step (_send conn "ERR invalid-username" ;;
            ret (Finished None))
    else
      Step (with_lock (
          us <- gets usernames ;;
          if Dict.mem username us then
            _send conn "ERR username-taken" ;;
            ret (Finished None)
          else
            modify (set_clients (Dict.set conn username)) ;;
            modify (set_usernames (Dict.set username conn)) ;;
            ret (Step (_send conn "OK" ;;
                       ret (Finished (Some username))))))
  else
    Step (_send conn "ERR must-login-first" ;;
          ret (Finished None)).

(** What the login would be if the test and the writes were not in one
    locked block: test under the lock, release, then write under the lock
    again.  This is not the code of the server; it is here to show what the
    single block buys. *)
Definition check_then_set_thread (conn : Conn) (line : string)
  : thread (option string) :=
  if startswith "LOGIN " line then
    let username := strip (slice_from 6 line) in
    if negb (truthy username) then
      Step (_send conn "ERR invalid-username" ;;
            ret (Finished None))
    else
      Step (with_lock (
          us <- gets usernames ;;
          if Dict.mem username us then
            _send conn "ERR username-taken" ;;
            ret (Finished None)
          else
            ret (Step (with_lock (
                modify (set_clients (Dict.set conn username)) ;;
                modify (set_usernames (Dict.set username conn)) ;;
                ret (Step (_send conn "OK" ;;
                           ret (Finished (Some username)))))))))
  else
    Step (_send conn "ERR must-login-first" ;;
          ret (Finished None)).

(** The handler threads, one per connection (thread-per-client): the
    thread of connection [c] is [p c]; a thread whose step raised is dead. *)
Definition pool (A : Type) : Type := Conn -> outcome (thread A).

(** The scheduler lets the thread of connection [c] take its next step. *)
Definition advance {A} (c : Conn) (p : pool A) (w : World) : pool A * World :=
  match p c with
  | Normal (Step atomic) =>
      let (o, w') := atomic w in
      (fun c' => if Nat.eqb c' c then o else p c', w')
  | _ => (p, w)
  end.

(** Any interleaving: the threads step in the order the schedule names
    them. *)
Fixpoint interleave {A} (schedule : list Conn) (p : pool A) (w : World)
  : pool A * World :=
  match schedule with
  | [] => (p, w)
  | c :: schedule' =>
      let (p', w') := advance c p w in interleave schedule' p' w'
  end.

(** Every connection [c] is about to process the stripped line
    [lines c] in its login loop. *)
Definition login_pool (lines : Conn -> string) : pool (option string) :=
  fun c => Normal (login_line_thread c (lines c)).

(** Where a login thread can be, as far as names go: it has bound the
    name [u] (and is about to send [OK], or has returned [u]), or it has
    not. *)
Definition holds_name (t : outcome (thread (option string))) (c : Conn)
    (u : string) : Prop :=
  t = Normal (Finished (Some u))
  \/ t = Normal (Step (_send c "OK" ;; ret (Finished (Some u)))).

(** What holds of the login threads and the name table at every moment of
    every interleaving started in the world [w0]. *)
Definition login_inv (lines : Conn -> string) (w0 : World)
    (p : pool (option string)) (w : World) : Prop :=
  (forall u, Dict.mem u (usernames w0) = true -> Dict.mem u (usernames w) = true)
  /\ forall c,
       p c = Normal (login_line_thread c (lines c))
       \/ p c = Normal (Finished None)
       \/ exists u,
            holds_name (p c) c u
            /\ Dict.get u (usernames w) = Some c
            /\ Dict.mem u (usernames w0) = false.


(* ================================================================== *)
(** ** Facts about strings and dictionaries *)

Lemma append_assoc (a b c : string) : ((a ++ b) ++ c = a ++ (b ++ c))%string.
Proof. induction a as [|x a IH]; simpl; [reflexivity | now rewrite IH]. Qed.

Lemma truthy_false (s : string) : truthy s = false -> s = "".
Proof. destruct s; [reflexivity | discriminate]. Qed.

Lemma truthy_true (s : string) : truthy s = true <-> s <> "".
Proof. destruct s; simpl; split; congruence. Qed.


Section DictFacts.
Context {K V : Type} `{EqDec K}.
Implicit Types (d : Dict.t K V) (k : K) (v : V).

Lemma eqb_refl k : eqb k k = true.
Proof. destruct (eqb_spec k k); congruence. Qed.

Lemma eqb_neq k k' : k <> k' -> eqb k k' = false.
Proof. destruct (eqb_spec k k'); congruence. Qed.

Lemma get_none_keys k d : Dict.get k d = None <-> ~ In k (Dict.keys d).
Proof.
  induction d as [|[k' v'] d IH]; simpl; [tauto|].
  destruct (eqb_spec k k') as [->|N].
  - split; [discriminate | intros X; exfalso; apply X; now left].
  - rewrite IH. split; [intros X [Y|Y]; [congruence | tauto] | tauto].
Qed.

Lemma mem_keys k d : Dict.mem k d = true <-> In k (Dict.keys d).
Proof.
  unfold Dict.mem. destruct (Dict.get k d) eqn:E.
  - split; [intros _|reflexivity].
    destruct (in_dec (fun a b => reflect_dec _ _ (eqb_spec a b)) k (Dict.keys d))
      as [I|I]; [exact I|].
    apply get_none_keys in I. congruence.
  - apply get_none_keys in E. split; [discriminate | tauto].
Qed.

Lemma memb_In k (l : list K) : memb k l = true <-> In k l.
Proof.
  induction l as [|x l IH]; simpl; [split; [discriminate | tauto]|].
  rewrite orb_true_iff, IH. destruct (eqb_spec k x); intuition congruence.
Qed.

Lemma memb_app k (l1 l2 : list K) : memb k (l1 ++ l2) = memb k l1 || memb k l2.
Proof.
  induction l1 as [|x l1 IH]; simpl; [reflexivity|].
  now rewrite IH, orb_assoc.
Qed.

Lemma del_absent k d : Dict.get k d = None -> Dict.del k d = d.
Proof.
  induction d as [|[k' v'] d IH]; simpl; [reflexivity|].
  destruct (eqb k k'); [discriminate|]. intros E. now rewrite IH.
Qed.

(** The guarded deletion of the source is a plain deletion. *)
Lemma del_guarded k d : (if Dict.mem k d then Dict.del k d else d) = Dict.del k d.
Proof.
  unfold Dict.mem. destruct (Dict.get k d) eqn:E; [reflexivity|].
  now rewrite del_absent.
Qed.

Lemma keys_del_incl k k' d : In k' (Dict.keys (Dict.del k d)) -> In k' (Dict.keys d).
Proof.
  induction d as [|[k0 v0] d IH]; simpl; [tauto|].
  destruct (eqb k k0); simpl; tauto.
Qed.

Lemma wf_del k d : Dict.wf d -> Dict.wf (Dict.del k d).
Proof.
  unfold Dict.wf. induction d as [|[k0 v0] d IH]; simpl; [trivial|].
  intros W. inversion W as [|? ? N W']; subst.
  destruct (eqb k k0); simpl; [exact W'|].
  constructor; [|auto]. intros I. apply N. eapply keys_del_incl; eauto.
Qed.

Lemma keys_del k d :
  Dict.wf d ->
  Dict.keys (Dict.del k d) = filter (fun x => negb (eqb x k)) (Dict.keys d).
Proof.
  unfold Dict.wf. induction d as [|[k0 v0] d IH]; simpl; [reflexivity|].
  intros W. inversion W as [|? ? N W']; subst.
  destruct (eqb_spec k k0) as [->|Ne]; simpl.
  - rewrite eqb_refl. simpl.
    symmetry. apply forallb_filter_id. apply forallb_forall.
    intros x I. destruct (eqb_spec x k0); [subst; contradiction | reflexivity].
  - rewrite (eqb_neq (k:=k0) (k':=k)) by congruence. simpl. now rewrite IH.
Qed.

Lemma get_del_same k d : Dict.wf d -> Dict.get k (Dict.del k d) = None.
Proof.
  intros W. apply get_none_keys. rewrite keys_del by exact W.
  rewrite filter_In, eqb_refl. simpl. intros [_ X]. discriminate.
Qed.

Lemma get_del_other k k' d : k <> k' -> Dict.get k' (Dict.del k d) = Dict.get k' d.
Proof.
  intros Ne. induction d as [|[k0 v0] d IH]; simpl; [reflexivity|].
  destruct (eqb_spec k k0) as [->|N0]; simpl.
  - rewrite eqb_neq by congruence. reflexivity.
  - now rewrite IH.
Qed.

Lemma get_set_same k v d : Dict.get k (Dict.set k v d) = Some v.
Proof.
  induction d as [|[k0 v0] d IH]; simpl.
  - now rewrite eqb_refl.
  - destruct (eqb k k0) eqn:E; simpl; rewrite E; [reflexivity | exact IH].
Qed.

Lemma get_set_other k k' v d : k <> k' -> Dict.get k' (Dict.set k v d) = Dict.get k' d.
Proof.
  intros Ne. induction d as [|[k0 v0] d IH]; simpl.
  - rewrite eqb_neq by congruence. reflexivity.
  - destruct (eqb_spec k k0) as [->|N0]; simpl.
    + rewrite eqb_neq by congruence. reflexivity.
    + now rewrite IH.
Qed.

Lemma keys_set_absent k v d :
  Dict.get k d = None -> Dict.keys (Dict.set k v d) = Dict.keys d ++ [k].
Proof.
  induction d as [|[k0 v0] d IH]; simpl; [reflexivity|].
  destruct (eqb k k0); [discriminate|]. intros E. simpl. now rewrite IH.
Qed.

Lemma keys_set_present k v d :
  Dict.mem k d = true -> Dict.keys (Dict.set k v d) = Dict.keys d.
Proof.
  unfold Dict.mem.
  induction d as [|[k0 v0] d IH]; simpl; [discriminate|].
  destruct (eqb k k0); simpl; [reflexivity|]. intros E. now rewrite IH.
Qed.

Lemma wf_set k v d : Dict.wf d -> Dict.wf (Dict.set k v d).
Proof.
  intros W. unfold Dict.wf. destruct (Dict.get k d) eqn:E.
  - rewrite keys_set_present; [exact W | unfold Dict.mem; now rewrite E].
  - rewrite keys_set_absent by exact E.
    apply NoDup_app; [exact W | repeat constructor; simpl; tauto |].
    intros x I [<-|[]]. apply get_none_keys in E. contradiction.
Qed.
End DictFacts.

(* ================================================================== *)
(** ** What the routing primitives do to the world *)

Lemma sock_ok_state (w w' : World) (c : Conn) :
  server_state w' = server_state w -> sock_ok w' c = sock_ok w c.
Proof. unfold server_state, sock_ok. intros E. injection E as _ _ _ _ -> ->. reflexivity. Qed.

Lemma sends_refl (w : World) : sends w w [].
Proof. split; [reflexivity | now rewrite app_nil_r]. Qed.

Lemma sends_trans (w w1 w2 : World) (p1 p2 : list packet) :
  sends w w1 p1 -> sends w1 w2 p2 -> sends w w2 (p1 ++ p2).
Proof.
  intros [S1 W1] [S2 W2]. split; [congruence|].
  now rewrite W2, W1, app_assoc.
Qed.

Lemma sends_since (w w' : World) (ps : list packet) :
  sends w w' ps -> since w w' = ps.
Proof.
  intros [_ E]. unfold since. rewrite E.
  rewrite skipn_app, skipn_all, Nat.sub_diag. reflexivity.
Qed.

Lemma sendall_run (conn : Conn) (data : string) (w : World) :
  sendall conn data w =
  (if sock_ok w conn then Normal tt else Raised (errno w conn),
   set_wire (fun l => l ++ [Packet conn data (sock_ok w conn)]) w).
Proof.
  unfold sendall, sock_ok, errno.
  destruct (memb conn (closed w)); simpl; [reflexivity|].
  destruct (memb conn (broken w)); reflexivity.
Qed.

Lemma _send_run (conn : Conn) (message : string) (w : World) :
  _send conn message w = (Normal tt, after_send conn message w).
Proof.
  unfold _send, try_except, after_send. rewrite sendall_run.
  destruct (sock_ok w conn); reflexivity.
Qed.

Lemma after_send_sends (conn : Conn) (message : string) (w : World) :
  sends w (after_send conn message w)
        [Packet conn (message ++ String LF "") (sock_ok w conn)].
Proof. unfold after_send. destruct (sock_ok w conn); split; reflexivity. Qed.

Lemma broadcast_loop (message : string) (exclude : option Conn)
    (l : list Conn) (w : World) :
  exists w',
    for_each l (fun conn =>
      if differs conn exclude then
        try_except
          (sendall conn (message ++ String LF ""))
          (fun e => print ("[SERVER] Error broadcasting to client: "
                           ++ exn_str e))
      else ret tt) w = (Normal tt, w')
    /\ sends w w' (map (fun c => Packet c (message ++ String LF "") (sock_ok w c))
                       (filter (fun c => differs c exclude) l)).
Proof.
  revert w. induction l as [|c l IH]; intros w; simpl.
  - exists w. split; [reflexivity | apply sends_refl].
  - unfold bind at 1. destruct (differs c exclude) eqn:D.
    + unfold try_except at 1. rewrite sendall_run.
      set (w1 := set_wire _ w).
      assert (S1 : sends w w1 [Packet c (message ++ String LF "") (sock_ok w c)])
        by (split; reflexivity).
      destruct (sock_ok w c) eqn:O.
      * destruct (IH w1) as (w' & R & S). exists w'. split; [exact R|].
        simpl. rewrite O. change (?x :: ?l) with ([x] ++ l).
        eapply sends_trans; [exact S1|].
        erewrite map_ext; [exact S|]. intros a. simpl.
        now rewrite (sock_ok_state _ (proj1 S1)).
      * unfold print, modify. set (w2 := set_console _ w1).
        assert (S2 : sends w w2 [Packet c (message ++ String LF "") false])
          by (split; reflexivity).
        destruct (IH w2) as (w' & R & S). exists w'. split; [exact R|].
        simpl. rewrite O. change (?x :: ?l) with ([x] ++ l).
        eapply sends_trans; [exact S2|].
        erewrite map_ext; [exact S|]. intros a. simpl.
        now rewrite (sock_ok_state _ (proj1 S2)).
    + unfold ret at 1. apply IH.
Qed.

Lemma _broadcast_spec (message : string) (exclude : option Conn) (w : World) :
  exists w',
    _broadcast message exclude w = (Normal tt, w')
    /\ sends w w' (map (fun c => Packet c (message ++ String LF "") (sock_ok w c))
                       (filter (fun c => differs c exclude)
                               (Dict.keys (clients w)))).
Proof.
  unfold _broadcast, with_lock, bind, gets. apply broadcast_loop.
Qed.

Lemma _send_private_spec (sender_conn : Conn) (from_user to_user text : string)
    (w : World) :
  exists w',
    _send_private sender_conn from_user to_user text w = (Normal tt, w')
    /\ sends w w'
         [match Dict.get to_user (usernames w) with
          | Some target_conn =>
              Packet target_conn ("DM " ++ from_user ++ " " ++ text ++ String LF "")
                     (sock_ok w target_conn)
          | None =>
              Packet sender_conn ("ERR user-not-found " ++ to_user ++ String LF "")
                     (sock_ok w sender_conn)
          end].
Proof.
  unfold _send_private, with_lock, bind, gets.
  destruct (Dict.get to_user (usernames w)) as [target_conn|] eqn:G.
  - unfold ret. rewrite _send_run. eexists. split; [reflexivity|].
    replace ("DM " ++ from_user ++ " " ++ text ++ String LF "")%string
      with (("DM " ++ from_user ++ " " ++ text) ++ String LF "")%string.
    + apply after_send_sends.
    + simpl. rewrite ?append_assoc. simpl. rewrite ?append_assoc. reflexivity.
  - rewrite _send_run. unfold ret. eexists. split; [reflexivity|].
    replace ("ERR user-not-found " ++ to_user ++ String LF "")%string
      with (("ERR user-not-found " ++ to_user) ++ String LF "")%string
      by reflexivity.
    apply after_send_sends.
Qed.

(* ================================================================== *)
(** ** What teardown and login do to the world *)

Lemma filter_true {X} (l : list X) : filter (fun _ => true) l = l.
Proof. induction l as [|x l IH]; simpl; [reflexivity | now rewrite IH]. Qed.

Lemma guarded_del_clients (conn : Conn) (w : World) :
  (if Dict.mem conn (clients w) then modify (set_clients (Dict.del conn))
   else ret tt) w = (Normal tt, set_clients (Dict.del conn) w).
Proof.
  unfold modify, ret, set_clients. rewrite <- (del_guarded conn (clients w)).
  destruct (Dict.mem conn (clients w)); [reflexivity | now destruct w].
Qed.

Lemma guarded_del_last_activity (conn : Conn) (w : World) :
  (if Dict.mem conn (last_activity w)
   then modify (set_last_activity (Dict.del conn))
   else ret tt) w = (Normal tt, set_last_activity (Dict.del conn) w).
Proof.
  unfold modify, ret, set_last_activity.
  rewrite <- (del_guarded conn (last_activity w)).
  destruct (Dict.mem conn (last_activity w)); [reflexivity | now destruct w].
Qed.

Lemma guarded_del_usernames (username : option string) (w : World) :
  match username with
  | Some u =>
      if truthy u && Dict.mem u (usernames w)
      then modify (set_usernames (Dict.del u))
      else ret tt
  | None => ret tt
  end w =
  (Normal tt,
   set_usernames (fun us => match named username with
                            | Some u => Dict.del u us
                            | None => us
                            end) w).
Proof.
  unfold modify, ret, set_usernames, named.
  destruct username as [u|]; [|now destruct w].
  destruct (truthy u); simpl; [|now destruct w].
  rewrite <- (del_guarded u (usernames w)).
  destruct (Dict.mem u (usernames w)); [reflexivity | now destruct w].
Qed.

Lemma _remove_client_spec (conn : Conn) (username : option string) (w : World) :
  exists w',
    _remove_client conn username w = (Normal tt, w')
    /\ clients w' = Dict.del conn (clients w)
    /\ usernames w' = match named username with
                      | Some u => Dict.del u (usernames w)
                      | None => usernames w
                      end
    /\ last_activity w' = Dict.del conn (last_activity w)
    /\ idle_timeout w' = idle_timeout w
    /\ closed w' = conn :: closed w
    /\ broken w' = broken w
    /\ wire w' = wire w ++
         match named username with
         | Some u =>
             map (fun c => Packet c ("INFO " ++ u ++ " disconnected" ++ String LF "")
                                  (negb (Nat.eqb c conn) && sock_ok w c))
                 (Dict.keys (Dict.del conn (clients w)))
         | None => []
         end.
Proof.
  unfold _remove_client, with_lock.
  unfold bind at 1 2 3 4 5 6 7. unfold gets.
  rewrite guarded_del_clients.
  change (usernames (set_clients (Dict.del conn) w)) with (usernames w).
  rewrite (guarded_del_usernames username (set_clients (Dict.del conn) w)).
  rewrite guarded_del_last_activity.
  unfold try_except, close, modify, named.
  destruct username as [u|]; [destruct (truthy u) eqn:T|].
  2,3: eexists; split; [reflexivity|]; repeat (split; [reflexivity|]); simpl;
       now rewrite app_nil_r.
  match goal with |- context [_ (set_closed ?f ?x)] => set (w3 := set_closed f x) end.
  unfold bind, print, modify.
  destruct (_broadcast_spec ("INFO " ++ u ++ " disconnected") None
              (set_console
                 (fun c => c ++ [("[SERVER] User '" ++ u ++ "' disconnected")%string])
                 w3))
    as (w' & R & S & W).
  exists w'. split; [exact R|].
  unfold server_state in S. injection S as -> -> -> -> -> ->.
  repeat (split; [reflexivity|]).
  rewrite W. change (fun c : Conn => differs c None) with (fun _ : Conn => true).
  rewrite filter_true. f_equal. apply map_ext. intros c.
  replace ("INFO " ++ u ++ " disconnected" ++ String LF "")%string
    with (("INFO " ++ u ++ " disconnected") ++ String LF "")%string
    by (rewrite !append_assoc; reflexivity).
  f_equal. unfold sock_ok. simpl.
  destruct (Nat.eqb c conn); reflexivity.
Qed.

(** The four ways one stripped, non-empty line ends before login. *)
Lemma login_line_run (conn : Conn) (line : string) (w : World) :
  login_line conn line w =
  if startswith "LOGIN " line then
    let username := strip (slice_from 6 line) in
    if negb (truthy username) then
      (Normal None, after_send conn "ERR invalid-username" w)
    else if Dict.mem username (usernames w) then
      (Normal None, after_send conn "ERR username-taken" w)
    else
      (Normal (Some username),
       after_send conn "OK"
         (set_usernames (Dict.set username conn)
            (set_clients (Dict.set conn username) w)))
  else (Normal None, after_send conn "ERR must-login-first" w).
Proof.
  unfold login_line.
  destruct (startswith "LOGIN " line).
  - cbv zeta. destruct (negb (truthy (strip (slice_from 6 line)))).
    + unfold bind, ret. now rewrite _send_run.
    + unfold with_lock, bind, gets.
      destruct (Dict.mem (strip (slice_from 6 line)) (usernames w)).
      * rewrite _send_run. reflexivity.
      * unfold modify, ret. now rewrite _send_run.
  - unfold bind, ret. now rewrite _send_run.
Qed.

Lemma after_send_since (conn : Conn) (message : string) (w : World) :
  since w (after_send conn message w)
  = [Packet conn (message ++ String LF "") (sock_ok w conn)].
Proof. apply sends_since, after_send_sends. Qed.

Lemma after_send_registry (conn : Conn) (message : string) (w : World) :
  registry (after_send conn message w) = registry w.
Proof. unfold after_send. destruct (sock_ok w conn); reflexivity. Qed.

Lemma after_send_state (conn : Conn) (message : string) (w : World) :
  server_state (after_send conn message w) = server_state w.
Proof. apply after_send_sends. Qed.

Lemma after_send_wire (conn : Conn) (message : string) (w : World) :
  wire (after_send conn message w)
  = wire w ++ [Packet conn (message ++ String LF "") (sock_ok w conn)].
Proof. apply after_send_sends. Qed.

Lemma after_send_fields (conn : Conn) (message : string) (w : World) :
  clients (after_send conn message w) = clients w
  /\ usernames (after_send conn message w) = usernames w
  /\ last_activity (after_send conn message w) = last_activity w
  /\ closed (after_send conn message w) = closed w
  /\ broken (after_send conn message w) = broken w.
Proof. unfold after_send. destruct (sock_ok w conn); repeat split. Qed.

Lemma login_post_after_send (conn : Conn) (message : string) (w : World) r :
  login_post conn (after_send conn message w) r -> login_post conn w r.
Proof.
  unfold login_post.
  rewrite (sock_ok_state _ (after_send_state conn message w)).
  rewrite after_send_registry, after_send_wire.
  destruct (after_send_fields conn message w) as (-> & -> & -> & _).
  destruct r as [[[u|]|e] w']; [|trivial|trivial].
  intros (T & M' & C & U & L & ps & W). repeat (split; [assumption|]).
  exists ([Packet conn (message ++ String LF "") (sock_ok w conn)] ++ ps).
  rewrite W, <- !app_assoc. reflexivity.
Qed.

Lemma login_lines_spec (conn : Conn) (lines : list string) (w : World) :
  login_post conn w (login_lines conn lines w).
Proof.
  revert w. induction lines as [|raw lines IH]; intros w; simpl.
  - reflexivity.
  - destruct (negb (truthy (strip raw))) eqn:B; [apply IH|].
    unfold bind. rewrite login_line_run.
    destruct (startswith "LOGIN " (strip raw)); cbv zeta.
    2: { apply login_post_after_send with (message := "ERR must-login-first").
         apply IH. }
    destruct (negb (truthy (strip (slice_from 6 (strip raw))))) eqn:T.
    { apply login_post_after_send with (message := "ERR invalid-username").
      apply IH. }
    destruct (Dict.mem (strip (slice_from 6 (strip raw))) (usernames w)) eqn:Mm.
    { apply login_post_after_send with (message := "ERR username-taken").
      apply IH. }
    unfold ret, login_post.
    apply negb_false_iff in T. split; [exact T|]. split; [exact Mm|].
    destruct (after_send_fields conn "OK"
                (set_usernames (Dict.set (strip (slice_from 6 (strip raw))) conn)
                   (set_clients (Dict.set conn (strip (slice_from 6 (strip raw)))) w)))
      as (-> & -> & -> & _).
    repeat (split; [reflexivity|]).
    exists []. rewrite after_send_wire. reflexivity.
Qed.

Unset Implicit Arguments.

(* ================================================================== *)
(** ** The example worlds are reachable *)

Example lobby_reachable :
  server_state
    (exec (on_accept 1 0%Z ;; on_accept 2 0%Z ;;
           login_iter 1 "peer1" (RecvData (wire_line "LOGIN alice") 0%Z) "" ;;
           login_iter 2 "peer2" (RecvData (wire_line "LOGIN bob") 50%Z) "")
          (init 60%Z))
  = server_state lobby.
Proof. reflexivity. Qed.

Example lobby_and_guest_reachable :
  server_state
    (exec (on_accept 1 0%Z ;; on_accept 2 0%Z ;;
           login_iter 1 "peer1" (RecvData (wire_line "LOGIN alice") 0%Z) "" ;;
           on_accept 3 0%Z ;;
           login_iter 2 "peer2" (RecvData (wire_line "LOGIN bob") 50%Z) "")
          (init 60%Z))
  = server_state lobby_and_guest.
Proof. reflexivity. Qed.

(** A whole handler run: a third client connects to [lobby] at time 60,
    logs in as carol, says something and leaves.  (The line that came in
    the same read as the [LOGIN] is dropped with the login buffer.) *)
Example handler_run :
  let session :=
    _handle_client 3 "peer3" 60%Z
      [RecvData (wire_line "LOGIN carol" ++ wire_line "MSG early") 61%Z;
       RecvRaises socket_timeout;
       RecvData ("MSG hi " ++ wire_line "all") 62%Z;
       RecvEOF] in
  result session lobby = Normal tt
  /\ wire (exec session lobby)
     = [Packet 3 (wire_line "OK") true;
        Packet 1 (wire_line "MSG carol hi all") true;
        Packet 2 (wire_line "MSG carol hi all") true;
        Packet 1 (wire_line "INFO carol disconnected") true;
        Packet 2 (wire_line "INFO carol disconnected") true]
  /\ registry (exec session lobby) = registry lobby.
Proof. repeat split; reflexivity. Qed.

(** Three reaper cycles over [lobby_and_guest], at times 10, 70 and 120. *)
Example reaper_run :
  wire (exec (_check_idle_clients [10%Z; 70%Z; 120%Z]) lobby_and_guest)
  = [Packet 1 (wire_line "ERR idle-timeout") true;
     Packet 2 (wire_line "INFO alice disconnected") true;
     Packet 2 (wire_line "ERR idle-timeout") true]
  /\ registry (exec (_check_idle_clients [10%Z; 70%Z; 120%Z]) lobby_and_guest)
     = ([], [], []).
Proof. split; reflexivity. Qed.

(* ================================================================== *)
(** ** Teardown *)

(** The removal half of teardown is idempotent: a second call finds
    nothing to delete. *)
Lemma teardown_registry_idempotent (conn : Conn) (username : option string)
    (w : World) :
  Dict.wf (clients w) -> Dict.wf (usernames w) -> Dict.wf (last_activity w) ->
  registry (exec (_remove_client conn username ;; _remove_client conn username) w)
  = registry (exec (_remove_client conn username) w).
Proof.
  intros Wc Wu Wl. unfold exec, bind.
  destruct (_remove_client_spec conn username w)
    as (w1 & -> & C1 & U1 & L1 & _).
  destruct (_remove_client_spec conn username w1)
    as (w2 & -> & C2 & U2 & L2 & _).
  simpl. unfold registry. rewrite C2, U2, L2, C1, U1, L1.
  rewrite (del_absent conn (Dict.del conn (clients w)))
    by now apply get_del_same.
  rewrite (del_absent conn (Dict.del conn (last_activity w)))
    by now apply get_del_same.
  destruct (named username) as [u|]; [|reflexivity].
  rewrite (del_absent u (Dict.del u (usernames w))) by now apply get_del_same.
  reflexivity.
Qed.

(** What one recipient gets out of a broadcast over distinct sockets. *)
Lemma broadcast_inbox (msg : string) (ok : Conn -> bool) (l : list Conn)
    (o : Conn) :
  NoDup l ->
  map payload
      (filter (fun p => Nat.eqb (dst p) o && delivered p)
              (map (fun c => Packet c msg (ok c)) l))
  = if memb o l && ok o then [msg] else [].
Proof.
  induction l as [|c l IH]; intros ND; [reflexivity|].
  inversion ND as [|? ? N ND']; subst. cbn [map filter dst delivered memb].
  change (eqb o c) with (Nat.eqb o c). rewrite (Nat.eqb_sym c o).
  destruct (Nat.eqb_spec o c) as [->|Ne]; cbn [andb orb].
  - assert (memb c l = false) as Ml
        by (destruct (memb c l) eqn:E; [apply memb_In in E; contradiction | reflexivity]).
    specialize (IH ND'). rewrite Ml in IH. cbn [andb] in IH.
    destruct (ok c); cbn [map]; now rewrite IH.
  - now apply IH.
Qed.

(** The notification half is not: every call with a name broadcasts,
    whether or not it removed anything. *)
Lemma teardown_always_notifies (conn : Conn) (u : string) (w : World) (o : Conn) :
  truthy u = true -> Dict.wf (clients w) ->
  In o (Dict.keys (clients w)) -> o <> conn -> sock_ok w o = true ->
  inbox o (exec (_remove_client conn (Some u)) w)
  = inbox o w ++ [wire_line ("INFO " ++ u ++ " disconnected")].
Proof.
  intros T Wc I Ne Ok. unfold exec.
  destruct (_remove_client_spec conn (Some u) w)
    as (w1 & -> & C1 & _ & _ & _ & _ & _ & W).
  cbn [snd]. unfold inbox. rewrite W. unfold named. rewrite T.
  rewrite filter_app, map_app. f_equal.
  rewrite broadcast_inbox by (apply wf_del; exact Wc).
  rewrite keys_del by exact Wc.
  assert (memb o (filter (fun x => negb (eqb x conn)) (Dict.keys (clients w)))
          = true) as ->.
  { apply memb_In, filter_In. split; [exact I|].
    now rewrite eqb_neq. }
  rewrite (proj2 (Nat.eqb_neq o conn) Ne), Ok. cbn [andb negb].
  unfold wire_line. now rewrite !append_assoc.
Qed.

(** Two teardowns in a row: the registry is as after one, and a client
    that stays is sent the notice twice. *)
Lemma teardown_twice_in_general (conn : Conn) (u : string) (w : World) (o : Conn) :
  truthy u = true ->
  Dict.wf (clients w) -> Dict.wf (usernames w) -> Dict.wf (last_activity w) ->
  In o (Dict.keys (clients w)) -> o <> conn -> sock_ok w o = true ->
  let twice := (_remove_client conn (Some u) ;; _remove_client conn (Some u)) in
  registry (exec twice w) = registry (exec (_remove_client conn (Some u)) w)
  /\ inbox o (exec twice w)
     = inbox o w ++ [wire_line ("INFO " ++ u ++ " disconnected");
                     wire_line ("INFO " ++ u ++ " disconnected")].
Proof.
  intros T Wc Wu Wl I Ne Ok twice. subst twice.
  split; [now apply teardown_registry_idempotent|].
  pose proof (teardown_always_notifies conn u w o T Wc I Ne Ok) as First.
  unfold exec, bind in *.
  destruct (_remove_client_spec conn (Some u) w)
    as (w1 & E1 & C1 & _ & _ & _ & Cl1 & B1 & _).
  rewrite E1 in *. cbn [snd] in First.
  assert (Wc1 : Dict.wf (clients w1)) by (rewrite C1; now apply wf_del).
  assert (I1 : In o (Dict.keys (clients w1))).
  { rewrite C1, keys_del by exact Wc. apply filter_In. split; [exact I|].
    now rewrite eqb_neq. }
  assert (Ok1 : sock_ok w1 o = true).
  { unfold sock_ok in *. rewrite Cl1, B1. cbn [memb].
    change (eqb o conn) with (Nat.eqb o conn).
    now rewrite (proj2 (Nat.eqb_neq o conn) Ne). }
  pose proof (teardown_always_notifies conn u w1 o T Wc1 I1 Ne Ok1) as Second.
  unfold exec in Second. rewrite Second, First, <- app_assoc. reflexivity.
Qed.

(** C1 (the code departs from the specification).  alice (socket 1) and bob
    (socket 2) are logged in and teardown runs twice for alice, as it does
    when the reaper evicts her and her own handler then reaches its
    [finally].  The registry ends without alice, and the second call deletes
    nothing more; but bob is sent [INFO alice disconnected] twice, once by
    each call, where the specification promises exactly one broadcast and
    a second call that does nothing. *)
Theorem C1_teardown_twice_notifies_twice :
  let once := _remove_client 1 (Some "alice") in
  let twice := (_remove_client 1 (Some "alice") ;;
                _remove_client 1 (Some "alice")) in
  result twice lobby = Normal tt
  /\ registry (exec twice lobby) = ([(2, "bob")], [("bob", 2)], [(2, 50%Z)])
  /\ registry (exec twice lobby) = registry (exec once lobby)
  /\ inbox 2 (exec once lobby) = [wire_line "INFO alice disconnected"]
  /\ inbox 2 (exec twice lobby) = [wire_line "INFO alice disconnected";
                                   wire_line "INFO alice disconnected"].
Proof. repeat split; reflexivity. Qed.

(** The same through the code paths that really run: the reaper evicts
    alice at time 70, her handler's [recv] then fails on the closed socket,
    the main loop breaks and [finally] tears her down again. *)
Example eviction_then_handler_exit_notifies_twice :
  is_idle 70 0 60 = true
  /\ result (client_iter 1 "alice" (RecvRaises BadFileDescriptor) "")
            (exec (reaper_cycle 70%Z) lobby) = Normal (Return tt)
  /\ inbox 2 (exec (reaper_cycle 70%Z ;;
                    client_iter 1 "alice" (RecvRaises BadFileDescriptor) "" ;;
                    _remove_client 1 (Some "alice")) lobby)
     = [wire_line "INFO alice disconnected";
        wire_line "INFO alice disconnected"].
Proof. repeat split; reflexivity. Qed.

(* ================================================================== *)
(** ** The single-connection send *)

(** C8 as the specification states it fails: whether the delivery went
    through or not,
    [_send] hands its caller the same value.  On [lobby_alice_gone] the
    [PONG] for socket 1 is lost, on [lobby] it arrives, and the caller sees
    [None] both times; so nothing the caller computes from what [_send]
    returns can tell a failed delivery from a successful one. *)
Lemma C8_failure_not_reported_to_caller :
  sock_ok lobby 1 = true
  /\ inbox 1 (exec (_send 1 "PONG") lobby) = [wire_line "PONG"]
  /\ sock_ok lobby_alice_gone 1 = false
  /\ inbox 1 (exec (_send 1 "PONG") lobby_alice_gone) = []
  /\ result (_send 1 "PONG") lobby_alice_gone = Normal tt
  /\ result (_send 1 "PONG") lobby_alice_gone = result (_send 1 "PONG") lobby
  /\ ~ (exists report : outcome unit -> bool,
          forall (conn : Conn) (message : string) (w : World),
            report (result (_send conn message) w) = sock_ok w conn).
Proof.
  repeat (split; [reflexivity|]).
  intros [report H].
  pose proof (H 1 "PONG" lobby) as A.
  pose proof (H 1 "PONG" lobby_alice_gone) as B.
  change (report (Normal tt) = true) in A.
  change (report (Normal tt) = false) in B.
  congruence.
Qed.

(** C8 (amended).  [_send] never raises: on every socket, usable or not,
    it returns [None].  It hands the line to [sendall] once and changes
    nothing else in the server; a failure is not passed to the caller, it
    leaves one line on the server console. *)
Theorem C8_send_never_raises_and_logs_failure :
  forall (conn : Conn) (message : string) (w : World),
    result (_send conn message) w = Normal tt
    /\ server_state (exec (_send conn message) w) = server_state w
    /\ since w (exec (_send conn message) w)
       = [Packet conn (wire_line message) (sock_ok w conn)]
    /\ console (exec (_send conn message) w)
       = if sock_ok w conn then console w
         else console w ++ [("[SERVER] Error sending message: "
                             ++ exn_str (errno w conn))%string].
Proof.
  intros conn message w. unfold result, exec. rewrite _send_run. simpl.
  split; [reflexivity|]. split; [apply after_send_state|].
  split; [apply after_send_since|].
  unfold after_send. destruct (sock_ok w conn); reflexivity.
Qed.

(* ================================================================== *)
(** ** Accept and login *)

Lemma touch_run (conn : Conn) (now : Timestamp) (w : World) :
  touch conn now w = (Normal tt, set_last_activity (Dict.set conn now) w).
Proof. reflexivity. Qed.

(** C2.  On accept the server records the connection in the registry
    ([last_activity]) and binds no name to it: the name tables are
    untouched, so a new socket has no entry in [clients].  Whatever lines
    are then read before login, the socket gets a name exactly when a
    [LOGIN] is accepted: if the login loop asks for more input the socket
    is still unnamed, and if it returns a name then that name is now bound
    to the socket in both tables and [OK] was the last line sent. *)
Theorem C2_session_registered_unnamed_on_accept :
  forall (conn : Conn) (now : Timestamp) (w : World),
    Dict.get conn (clients w) = None ->
    let w1 := exec (on_accept conn now) w in
    result (on_accept conn now) w = Normal tt
    /\ Dict.get conn (last_activity w1) = Some now
    /\ clients w1 = clients w
    /\ usernames w1 = usernames w
    /\ Dict.get conn (clients w1) = None
    /\ forall lines : list string,
         match login_lines conn lines w1 with
         | (Normal None, w2) =>
             Dict.get conn (clients w2) = None
         | (Normal (Some u), w2) =>
             Dict.get conn (clients w2) = Some u
             /\ Dict.get u (usernames w2) = Some conn
             /\ exists ps,
                  since w1 w2 = ps ++ [Packet conn (wire_line "OK") (sock_ok w conn)]
         | (Raised _, _) => False
         end.
Proof.
  intros conn now w Fresh w1. subst w1. unfold result, exec, on_accept.
  rewrite touch_run. cbn [fst snd].
  split; [reflexivity|]. split; [apply get_set_same|].
  split; [reflexivity|]. split; [reflexivity|]. split; [exact Fresh|].
  intros lines.
  pose proof (login_lines_spec conn lines
                (set_last_activity (Dict.set conn now) w)) as P.
  unfold login_post in P.
  destruct (login_lines conn lines _) as [[[u|]|e] w2]; [| |exact P].
  - destruct P as (_ & _ & C & U & _ & ps & W).
    rewrite C, U. split; [apply get_set_same|]. split; [apply get_set_same|].
    exists ps. unfold since. rewrite W.
    rewrite skipn_app, skipn_all, Nat.sub_diag. reflexivity.
  - unfold registry in P. injection P as -> _ _. exact Fresh.
Qed.

(** C2 at a concrete accept: socket 3 joins [lobby] at time 7. *)
Lemma C2_witness :
  Dict.get 3 (last_activity (exec (on_accept 3 7%Z) lobby)) = Some 7%Z
  /\ Dict.get 3 (clients (exec (on_accept 3 7%Z) lobby)) = None.
Proof.
  pose proof (C2_session_registered_unnamed_on_accept 3 7%Z lobby eq_refl) as H.
  cbv zeta in H. destruct H as (_ & A & _ & _ & B & _). exact (conj A B).
Defined.

(** The login thread run on its own is [login_line]. *)
Lemma run_alone_login_line_thread (conn : Conn) (line : string) (w : World) :
  run_alone (login_line_thread conn line) w = login_line conn line w.
Proof.
  rewrite login_line_run. unfold login_line_thread.
  destruct (startswith "LOGIN " line); cbv zeta.
  - destruct (negb (truthy (strip (slice_from 6 line)))).
    + cbn [run_alone]. unfold bind, ret. rewrite _send_run. reflexivity.
    + cbn [run_alone]. unfold with_lock, bind, gets.
      destruct (Dict.mem (strip (slice_from 6 line)) (usernames w)).
      * rewrite _send_run. reflexivity.
      * unfold modify, ret. cbn [run_alone]. unfold bind.
        rewrite _send_run. reflexivity.
  - cbn [run_alone]. unfold bind, ret. rewrite _send_run. reflexivity.
Qed.

(** The first step of a login thread for a line with a name: the locked
    block, in whatever world it comes to run. *)
Lemma login_line_thread_step (conn : Conn) (line : string) :
  startswith "LOGIN " line = true ->
  truthy (strip (slice_from 6 line)) = true ->
  exists atomic,
    login_line_thread conn line = Step atomic
    /\ forall v : World,
         atomic v
         = if Dict.mem (strip (slice_from 6 line)) (usernames v) then
             (Normal (Finished None),
              exec (_send conn "ERR username-taken") v)
           else
             (Normal (Step (_send conn "OK" ;;
                            ret (Finished (Some (strip (slice_from 6 line)))))),
              set_usernames (Dict.set (strip (slice_from 6 line)) conn)
                (set_clients (Dict.set conn (strip (slice_from 6 line))) v)).
Proof.
  intros P T. unfold login_line_thread. rewrite P. cbv zeta. rewrite T.
  cbn [negb]. eexists. split; [reflexivity|].
  intros v. unfold with_lock, bind, gets, exec.
  destruct (Dict.mem (strip (slice_from 6 line)) (usernames v)).
  - rewrite _send_run. reflexivity.
  - reflexivity.
Qed.

(** Every step a login thread can take, in whatever world [v]: it ends
    refused with the name tables as they were, or it binds a name that was
    free in [v] and is left with sending [OK]. *)
Lemma login_line_thread_first (conn : Conn) (line : string) :
  exists atomic,
    login_line_thread conn line = Step atomic
    /\ forall v : World,
         (exists v', atomic v = (Normal (Finished None), v')
                     /\ usernames v' = usernames v)
         \/ (exists u,
               atomic v
               = (Normal (Step (_send conn "OK" ;; ret (Finished (Some u)))),
                  set_usernames (Dict.set u conn)
                    (set_clients (Dict.set conn u) v))
               /\ Dict.mem u (usernames v) = false).
Proof.
  assert (Refuse : forall message v,
            exists v', (_send conn message ;; ret (Finished None)) v
                       = (Normal (@Finished (option string) None), v')
                       /\ usernames v' = usernames v).
  { intros message v. unfold bind, ret. rewrite _send_run.
    eexists. split; [reflexivity|].
    now destruct (after_send_fields conn message v) as (_ & -> & _). }
  destruct (startswith "LOGIN " line) eqn:P;
    [destruct (truthy (strip (slice_from 6 line))) eqn:T|].
  - destruct (login_line_thread_step conn line P T) as (atomic & Ea & Hv).
    exists atomic. split; [exact Ea|]. intros v. rewrite Hv.
    destruct (Dict.mem (strip (slice_from 6 line)) (usernames v)) eqn:Mm.
    + left. exists (exec (_send conn "ERR username-taken") v).
      split; [reflexivity|]. unfold exec. rewrite _send_run. cbn [snd].
      now destruct (after_send_fields conn "ERR username-taken" v)
        as (_ & -> & _).
    + right. exists (strip (slice_from 6 line)). split; [reflexivity | exact Mm].
  - unfold login_line_thread. rewrite P. cbv zeta. rewrite T. cbn [negb].
    eexists. split; [reflexivity|]. intros v. left. apply Refuse.
  - unfold login_line_thread. rewrite P.
    eexists. split; [reflexivity|]. intros v. left. apply Refuse.
Qed.

Lemma mem_set_mono {K V} `{EqDec K} (k k' : K) (v : V) (d : Dict.t K V) :
  Dict.mem k d = true -> Dict.mem k (Dict.set k' v d) = true.
Proof.
  unfold Dict.mem. intros M. destruct (eqb_spec k' k) as [E|Ne].
  - subst k'. now rewrite (get_set_same k v d).
  - now rewrite (get_set_other v d Ne).
Qed.

Lemma login_inv_start (lines : Conn -> string) (w : World) :
  login_inv lines w (login_pool lines) w.
Proof. split; [auto|]. intros c. left. reflexivity. Qed.

Lemma login_inv_advance (lines : Conn -> string) (w0 : World) (c : Conn)
    (p : pool (option string)) (w : World) :
  login_inv lines w0 p w ->
  login_inv lines w0 (fst (advance c p w)) (snd (advance c p w)).
Proof.
  intros (Mono & Inv). unfold advance.
  destruct (Inv c) as [E | [E | (u & [E|E] & G & F0)]]; rewrite E.
  - destruct (login_line_thread_first c (lines c)) as (atomic & -> & Hstep).
    destruct (Hstep w) as [(v' & -> & Uv) | (u & -> & Free)]; cbn [fst snd].
    + split; [intros u0 H0; rewrite Uv; auto|].
      intros c'. destruct (Nat.eqb_spec c' c) as [->|Ne]; [right; left; reflexivity|].
      destruct (Inv c') as [H1|[H1|(u' & H1 & G1 & F1)]]; [auto | auto |].
      right. right. exists u'. rewrite Uv. auto.
    + cbn [usernames set_usernames set_clients]. split.
      * intros u0 H0. apply mem_set_mono. auto.
      * intros c'. destruct (Nat.eqb_spec c' c) as [->|Ne].
        -- right. right. exists u. split; [right; reflexivity|].
           split; [apply get_set_same|].
           destruct (Dict.mem u (usernames w0)) eqn:M0; [|reflexivity].
           apply Mono in M0. congruence.
        -- destruct (Inv c') as [H1|[H1|(u' & H1 & G1 & F1)]]; [auto | auto |].
           right. right. exists u'. split; [exact H1|]. split; [|exact F1].
           rewrite <- G1. apply get_set_other.
           intros ->. unfold Dict.mem in Free. now rewrite G1 in Free.
  - split; [exact Mono | exact Inv].
  - split; [exact Mono | exact Inv].
  - unfold bind, ret. rewrite _send_run. cbn [fst snd].
    destruct (after_send_fields c "OK" w) as (_ & Uv & _).
    split; [intros u0 H0; rewrite Uv; auto|].
    intros c'. destruct (Nat.eqb_spec c' c) as [->|Ne].
    + right. right. exists u. split; [left; reflexivity|]. rewrite Uv. auto.
    + destruct (Inv c') as [H1|[H1|(u' & H1 & G1 & F1)]]; [auto | auto |].
      right. right. exists u'. rewrite Uv. auto.
Qed.

Lemma login_inv_interleave (lines : Conn -> string) (w0 : World)
    (schedule : list Conn) (p : pool (option string)) (w : World) :
  login_inv lines w0 p w ->
  login_inv lines w0 (fst (interleave schedule p w))
            (snd (interleave schedule p w)).
Proof.
  revert p w. induction schedule as [|c schedule IH]; intros p w I; [exact I|].
  cbn [interleave]. pose proof (login_inv_advance lines w0 c p w I) as I1.
  destruct (advance c p w) as [p1 w1]. now apply IH.
Qed.

Lemma login_inv_winner (lines : Conn -> string) (w0 : World)
    (p : pool (option string)) (w : World) (c : Conn) (u : string) :
  login_inv lines w0 p w ->
  p c = Normal (Finished (Some u)) ->
  Dict.get u (usernames w) = Some c /\ Dict.mem u (usernames w0) = false.
Proof.
  intros (_ & Inv) E.
  destruct (Inv c) as [H1|[H1|(u' & [H1|H1] & G & F0)]]; rewrite H1 in E.
  - destruct (login_line_thread_first c (lines c)) as (atomic & Ea & _).
    rewrite Ea in E. discriminate.
  - discriminate.
  - injection E as ->. split; assumption.
  - discriminate.
Qed.

(** The attempt run through without interference: both outcomes. *)
Lemma login_line_binds_or_reports (conn : Conn) (line : string) (w : World) :
  startswith "LOGIN " line = true ->
  truthy (strip (slice_from 6 line)) = true ->
  let name := strip (slice_from 6 line) in
  let w' := exec (login_line conn line) w in
  if Dict.mem name (usernames w) then
    result (login_line conn line) w = Normal None
    /\ registry w' = registry w
    /\ since w w' = [Packet conn (wire_line "ERR username-taken") (sock_ok w conn)]
  else
    result (login_line conn line) w = Normal (Some name)
    /\ clients w' = Dict.set conn name (clients w)
    /\ usernames w' = Dict.set name conn (usernames w)
    /\ last_activity w' = last_activity w
    /\ Dict.get conn (clients w') = Some name
    /\ Dict.get name (usernames w') = Some conn
    /\ since w w' = [Packet conn (wire_line "OK") (sock_ok w conn)].
Proof.
  intros P T name w'. subst name w'. unfold result, exec.
  rewrite login_line_run, P. cbv zeta. rewrite T. cbn [negb].
  destruct (Dict.mem (strip (slice_from 6 line)) (usernames w)); cbn [fst snd].
  - split; [reflexivity|]. split; [apply after_send_registry|].
    apply after_send_since.
  - set (name := strip (slice_from 6 line)).
    set (w1 := set_usernames _ _).
    destruct (after_send_fields conn "OK" w1) as (C & U & L & _).
    rewrite C, U, L. split; [reflexivity|].
    repeat (split; [reflexivity|]).
    split; [apply get_set_same|]. split; [apply get_set_same|].
    unfold since. rewrite after_send_wire.
    change (wire w1) with (wire w).
    rewrite skipn_app, skipn_all, Nat.sub_diag. reflexivity.
Qed.

(** C3.  A stripped line that starts with [LOGIN ] and carries a
    non-empty name.
    - Run through: when the name is in [usernames] the reply is
      [ERR username-taken], the registry is unchanged and the loop goes on
      unauthenticated; otherwise the name is bound to the socket in both
      tables, the reply is [OK] and the login returns the name.
    - Atomically: as a thread, the attempt begins with one step, the
      locked block, and in whatever world that step comes to run it either
      finds the name taken and ends refused, or finds it free and binds it in
      that same step, leaving only [OK] to send; no other thread runs between
      the test and the binding.
    - Hence, under every interleaving of the login attempts of all
      connections, whatever lines they send: a name that was taken at the
      start is never granted, a granted name is bound to the connection it
      was granted to, and no name is granted to two connections. *)
Theorem C3_login_binds_free_name_atomically_or_reports_taken :
  forall (conn : Conn) (line : string) (w : World),
    startswith "LOGIN " line = true ->
    truthy (strip (slice_from 6 line)) = true ->
    let name := strip (slice_from 6 line) in
    let w' := exec (login_line conn line) w in
    (if Dict.mem name (usernames w) then
       result (login_line conn line) w = Normal None
       /\ registry w' = registry w
       /\ since w w'
          = [Packet conn (wire_line "ERR username-taken") (sock_ok w conn)]
     else
       result (login_line conn line) w = Normal (Some name)
       /\ clients w' = Dict.set conn name (clients w)
       /\ usernames w' = Dict.set name conn (usernames w)
       /\ last_activity w' = last_activity w
       /\ Dict.get conn (clients w') = Some name
       /\ Dict.get name (usernames w') = Some conn
       /\ since w w' = [Packet conn (wire_line "OK") (sock_ok w conn)])
    /\ run_alone (login_line_thread conn line) w = login_line conn line w
    /\ (exists atomic,
          login_line_thread conn line = Step atomic
          /\ forall v : World,
               atomic v
               = if Dict.mem name (usernames v) then
                   (Normal (Finished None),
                    exec (_send conn "ERR username-taken") v)
                 else
                   (Normal (Step (_send conn "OK" ;;
                                  ret (Finished (Some name)))),
                    set_usernames (Dict.set name conn)
                      (set_clients (Dict.set conn name) v)))
    /\ forall (lines : Conn -> string) (schedule : list Conn)
              (c : Conn) (u : string),
         fst (interleave schedule (login_pool lines) w) c
         = Normal (Finished (Some u)) ->
         Dict.mem u (usernames w) = false
         /\ Dict.get u (usernames (snd (interleave schedule (login_pool lines) w)))
            = Some c
         /\ forall c2 : Conn,
              fst (interleave schedule (login_pool lines) w) c2
              = Normal (Finished (Some u)) ->
              c2 = c.
Proof.
  intros conn line w P T name w'.
  split; [exact (login_line_binds_or_reports conn line w P T)|].
  split; [apply run_alone_login_line_thread|].
  split; [exact (login_line_thread_step conn line P T)|].
  intros lines schedule c u E.
  pose proof (login_inv_interleave lines w schedule (login_pool lines) w
                (login_inv_start lines w)) as I.
  destruct (login_inv_winner lines w _ _ c u I E) as (G & F0).
  split; [exact F0|]. split; [exact G|].
  intros c2 E2.
  destruct (login_inv_winner lines w _ _ c2 u I E2) as (G2 & _).
  congruence.
Qed.

(** C3 at concrete inputs: a guest on socket 3 asks for a taken and for a
    free name; and the guests on sockets 3 and 4 both ask for carol, their
    steps interleaved. *)
Lemma C3_witness :
  (result (login_line 3 "LOGIN alice") lobby_and_guest = Normal None
   /\ registry (exec (login_line 3 "LOGIN alice") lobby_and_guest)
      = registry lobby_and_guest)
  /\ result (login_line 3 "LOGIN carol") lobby_and_guest = Normal (Some "carol")
  /\ fst (interleave [3; 4; 4; 3] (login_pool (fun _ => "LOGIN carol"))
                     lobby_and_guest) 4
     <> Normal (Finished (Some "carol")).
Proof.
  pose proof (C3_login_binds_free_name_atomically_or_reports_taken
                3 "LOGIN alice" lobby_and_guest eq_refl eq_refl) as A.
  pose proof (C3_login_binds_free_name_atomically_or_reports_taken
                3 "LOGIN carol" lobby_and_guest eq_refl eq_refl) as B.
  cbv zeta in A, B. destruct A as (A & _). destruct B as (B & _ & _ & U).
  change (Dict.mem (strip (slice_from 6 "LOGIN alice"))
                   (usernames lobby_and_guest)) with true in A.
  change (Dict.mem (strip (slice_from 6 "LOGIN carol"))
                   (usernames lobby_and_guest)) with false in B.
  cbv iota in A, B.
  destruct A as (A1 & A2 & _). destruct B as (B1 & _).
  split; [exact (conj A1 A2)|]. split; [exact B1|].
  intros E4.
  destruct (U (fun _ => "LOGIN carol") [3; 4; 4; 3] 3 "carol" eq_refl)
    as (_ & _ & Only).
  specialize (Only 4 E4). discriminate.
Defined.

(** Run on its own, a test-then-write login does what the login of the
    server does: the difference shows only when threads interleave. *)
Lemma check_then_set_alone (c : Conn) (line : string) (w : World) :
  run_alone (check_then_set_thread c line) w
  = run_alone (login_line_thread c line) w.
Proof.
  unfold check_then_set_thread, login_line_thread.
  destruct (startswith "LOGIN " line); cbv zeta; [|reflexivity].
  destruct (negb (truthy (strip (slice_from 6 line)))); [reflexivity|].
  cbn [run_alone]. unfold with_lock, bind, gets.
  destruct (Dict.mem (strip (slice_from 6 line)) (usernames w)); reflexivity.
Qed.

(** What the lock is for.  Sockets 3 and 4 both send [LOGIN carol] and
    their steps alternate.  With the test and the writes in one locked
    block, as in the server, socket 3 gets the name and socket 4 is refused;
    with a test-then-write login both would be told [OK]. *)
Example one_block_or_check_then_set :
  let lines := fun _ : Conn => "LOGIN carol" in
  let run p := fst (interleave [3; 4; 3; 4; 3; 4] p lobby_and_guest) in
  (run (login_pool lines) 3 = Normal (Finished (Some "carol"))
   /\ run (login_pool lines) 4 = Normal (Finished None))
  /\ (run (fun c => Normal (check_then_set_thread c (lines c))) 3
      = Normal (Finished (Some "carol"))
      /\ run (fun c => Normal (check_then_set_thread c (lines c))) 4
         = Normal (Finished (Some "carol"))).
Proof. repeat split; reflexivity. Qed.

(** C4.  Before login, a received line that is not empty once stripped
    and does not start with [LOGIN ] is answered with
    [ERR must-login-first], sent to the connection it came from and to no
    other; the three dictionaries and the sockets are left as they were and
    the login loop goes on. *)
Theorem C4_other_line_before_login_is_refused :
  forall (conn : Conn) (raw : string) (w : World),
    truthy (strip raw) = true ->
    startswith "LOGIN " (strip raw) = false ->
    let w' := exec (login_lines conn [raw]) w in
    result (login_lines conn [raw]) w = Normal None
    /\ registry w' = registry w
    /\ server_state w' = server_state w
    /\ since w w'
       = [Packet conn (wire_line "ERR must-login-first") (sock_ok w conn)].
Proof.
  intros conn raw w T P w'. subst w'. unfold result, exec.
  cbn [login_lines]. rewrite T. cbn [negb]. unfold bind.
  rewrite login_line_run, P. cbn [fst snd ret].
  split; [reflexivity|]. split; [apply after_send_registry|].
  split; [apply after_send_state | apply after_send_since].
Qed.

Lemma C4_witness :
  since lobby_and_guest (exec (login_lines 3 ["MSG hello"]) lobby_and_guest)
  = [Packet 3 (wire_line "ERR must-login-first") true]
  /\ registry (exec (login_lines 3 ["MSG hello"]) lobby_and_guest)
     = registry lobby_and_guest.
Proof.
  pose proof (C4_other_line_before_login_is_refused
                3 "MSG hello" lobby_and_guest eq_refl eq_refl) as H.
  cbv zeta in H. destruct H as (_ & R & _ & S). exact (conj S R).
Defined.

(** C9.  Before login, a received line that strips to the bare keyword
    [LOGIN] is answered with [ERR must-login-first] and nothing else; and
    so is every stripped line that does not begin with the six characters
    [LOGIN ]: only those are read as login attempts. *)
Theorem C9_bare_login_is_must_login_first :
  forall (conn : Conn) (raw : string) (w : World),
    strip raw = "LOGIN" ->
    (result (login_lines conn [raw]) w = Normal None
     /\ registry (exec (login_lines conn [raw]) w) = registry w
     /\ since w (exec (login_lines conn [raw]) w)
        = [Packet conn (wire_line "ERR must-login-first") (sock_ok w conn)])
    /\ forall line : string,
         startswith "LOGIN " line = false ->
         result (login_line conn line) w = Normal None
         /\ since w (exec (login_line conn line) w)
            = [Packet conn (wire_line "ERR must-login-first") (sock_ok w conn)].
Proof.
  intros conn raw w E. split.
  - unfold result, exec. cbn [login_lines]. rewrite E. cbn [truthy negb].
    unfold bind. rewrite login_line_run. cbn [startswith Ascii.eqb andb].
    cbn [fst snd ret].
    split; [reflexivity|]. split; [apply after_send_registry|].
    apply after_send_since.
  - intros line P. unfold result, exec. rewrite login_line_run, P.
    split; [reflexivity | apply after_send_since].
Qed.

Lemma C9_witness :
  since lobby_and_guest (exec (login_lines 3 ["LOGIN   "]) lobby_and_guest)
  = [Packet 3 (wire_line "ERR must-login-first") true].
Proof.
  pose proof (C9_bare_login_is_must_login_first
                3 "LOGIN   " lobby_and_guest eq_refl) as H.
  destruct H as ((_ & _ & S) & _). exact S.
Defined.

(* ================================================================== *)
(** ** Commands after login *)


Lemma dm_is_not_msg_nor_who (line : string) :
  startswith "DM " line = true ->
  startswith "MSG " line = false /\ String.eqb line "WHO" = false.
Proof.
  destruct line as [|a line]; [discriminate|]. cbn [startswith].
  intros H. apply andb_true_iff in H. destruct H as [H _].
  apply Ascii.eqb_eq in H. subst a. split; reflexivity.
Qed.




(** C6.  A logged-in client's line that starts with [DM ] and splits
    into a target and a text: when the target is in [usernames], the one
    packet sent is [DM <username> <text>], to the socket bound to the
    target; when it is not, the one packet sent is
    [ERR user-not-found <target>], to the sender.  No other socket is handed
    anything and nothing else in the server changes. *)
Theorem C6_dm_goes_to_target_only :
  forall (conn : Conn) (username line target text : string) (w : World),
    startswith "DM " line = true ->
    split1 SP (strip (slice_from 3 line)) = [target; text] ->
    let w' := exec (_process_command conn username line) w in
    result (_process_command conn username line) w = Normal tt
    /\ server_state w' = server_state w
    /\ since w w'
       = [match Dict.get target (usernames w) with
          | Some target_conn =>
              Packet target_conn (wire_line ("DM " ++ username ++ " " ++ text))
                     (sock_ok w target_conn)
          | None =>
              Packet conn (wire_line ("ERR user-not-found " ++ target))
                     (sock_ok w conn)
          end].
Proof.
  intros conn username line target text w P S w'. subst w'.
  unfold result, exec, _process_command.
  destruct (dm_is_not_msg_nor_who line P) as [-> ->]. rewrite P, S.
  destruct (_send_private_spec conn username target text w) as (w' & -> & Sd).
  cbn [fst snd]. split; [reflexivity|]. split; [apply Sd|].
  rewrite (sends_since Sd). f_equal.
  destruct (Dict.get target (usernames w)); unfold wire_line;
    rewrite ?append_assoc; cbn [append]; rewrite ?append_assoc; reflexivity.
Qed.

(** C6 at concrete inputs: alice writes to bob, then to carol, who is not
    there. *)
Lemma C6_witness :
  since lobby_and_guest
        (exec (_process_command 1 "alice" "DM bob hi") lobby_and_guest)
  = [Packet 2 (wire_line "DM alice hi") true]
  /\ since lobby_and_guest
        (exec (_process_command 1 "alice" "DM carol hi") lobby_and_guest)
     = [Packet 1 (wire_line "ERR user-not-found carol") true].
Proof.
  pose proof (C6_dm_goes_to_target_only 1 "alice" "DM bob hi" "bob" "hi"
                lobby_and_guest eq_refl eq_refl) as A.
  pose proof (C6_dm_goes_to_target_only 1 "alice" "DM carol hi" "carol" "hi"
                lobby_and_guest eq_refl eq_refl) as B.
  cbv zeta in A, B. destruct A as (_ & _ & A). destruct B as (_ & _ & B).
  exact (conj A B).
Defined.

(* ================================================================== *)
(** ** Blank lines and the activity stamp *)

Lemma who_loop_state (conn : Conn) (users : list string) (w : World) :
  exists w',
    for_each users (fun user => _send conn ("USER " ++ user)) w = (Normal tt, w')
    /\ server_state w' = server_state w.
Proof.
  revert w. induction users as [|user users IH]; intros w; cbn [for_each].
  - exists w. split; reflexivity.
  - unfold bind. rewrite _send_run.
    destruct (IH (after_send conn ("USER " ++ user) w)) as (w' & R & S).
    exists w'. split; [exact R|]. rewrite S. apply after_send_state.
Qed.

(** No command touches the dictionaries or the sockets, and none raises. *)
Lemma _process_command_state (conn : Conn) (username line : string) (w : World) :
  exists w',
    _process_command conn username line w = (Normal tt, w')
    /\ server_state w' = server_state w.
Proof.
  unfold _process_command.
  destruct (startswith "MSG " line).
  { destruct (truthy (strip (slice_from 4 line))).
    - destruct (_broadcast_spec ("MSG " ++ username ++ " "
                                 ++ strip (slice_from 4 line)) (Some conn) w)
        as (w' & R & S & _).
      exists w'. split; assumption.
    - exists w. split; reflexivity. }
  destruct (String.eqb line "WHO").
  { unfold with_lock, bind, gets. apply who_loop_state. }
  destruct (startswith "DM " line).
  { destruct (split1 SP (strip (slice_from 3 line))) as [|target [|text parts]].
    1,2: rewrite _send_run; eexists; split;
         [reflexivity | apply after_send_state].
    destruct (_send_private_spec conn username target text w)
      as (w' & R & S & _).
    exists w'. split; assumption. }
  destruct (String.eqb line "PING").
  { rewrite _send_run. eexists. split; [reflexivity | apply after_send_state]. }
  exists w. split; reflexivity.
Qed.

Lemma command_lines_state (conn : Conn) (username : string)
    (lines : list string) (w : World) :
  exists w',
    command_lines conn username lines w = (Normal tt, w')
    /\ server_state w' = server_state w.
Proof.
  revert w. induction lines as [|raw lines IH]; intros w; cbn [command_lines].
  - exists w. split; reflexivity.
  - unfold bind. destruct (truthy (strip raw)).
    + destruct (_process_command_state conn username (strip raw) w)
        as (w1 & -> & S1).
      destruct (IH w1) as (w' & R & S). exists w'. split; congruence.
    + apply IH.
Qed.

(** A blank line anywhere among the lines of a read changes nothing. *)
Lemma login_lines_skip_blank (conn : Conn) (pre post : list string)
    (raw : string) (w : World) :
  strip raw = "" ->
  login_lines conn (pre ++ raw :: post) w = login_lines conn (pre ++ post) w.
Proof.
  intros B. revert w. induction pre as [|x pre IH]; intros w.
  - cbn [app login_lines]. rewrite B. reflexivity.
  - cbn [app login_lines]. destruct (negb (truthy (strip x))); [apply IH|].
    unfold bind. destruct (login_line conn (strip x) w) as [[[u|]|e] w1];
      [reflexivity | apply IH | reflexivity].
Qed.

Lemma command_lines_skip_blank (conn : Conn) (username : string)
    (pre post : list string) (raw : string) (w : World) :
  strip raw = "" ->
  command_lines conn username (pre ++ raw :: post) w
  = command_lines conn username (pre ++ post) w.
Proof.
  intros B. revert w. induction pre as [|x pre IH]; intros w.
  - cbn [app command_lines]. rewrite B. reflexivity.
  - cbn [app command_lines]. unfold bind.
    destruct ((if truthy (strip x)
               then _process_command conn username (strip x)
               else ret tt) w) as [[[]|e] w1]; [apply IH | reflexivity].
Qed.

(** A read that brings data stamps the session, whatever the data. *)
Lemma login_iter_stamps (conn : Conn) (addr buffer data : string)
    (now : Timestamp) (w : World) :
  Dict.get conn
    (last_activity (exec (login_iter conn addr (RecvData data now) buffer) w))
  = Some now.
Proof.
  unfold exec, login_iter, try_except, recv, bind, ret, touch, with_lock, modify.
  cbv beta iota.
  set (w1 := set_last_activity (Dict.set conn now) w).
  assert (G : Dict.get conn (last_activity w1) = Some now)
    by apply get_set_same.
  destruct (split_lines (buffer ++ data)) as [lines rest].
  pose proof (login_lines_spec conn lines w1) as P. unfold login_post in P.
  destruct (login_lines conn lines w1) as [[[u|]|e] w2]; [| |contradiction].
  - destruct P as (_ & _ & _ & _ & L & _). cbn [snd]. now rewrite L.
  - unfold registry in P. injection P as _ _ L. cbn [snd]. now rewrite L.
Qed.

Lemma client_iter_stamps (conn : Conn) (username buffer data : string)
    (now : Timestamp) (w : World) :
  Dict.get conn
    (last_activity (exec (client_iter conn username (RecvData data now) buffer) w))
  = Some now.
Proof.
  unfold exec, client_iter, try_except, recv, bind, ret, touch, with_lock, modify.
  cbv beta iota.
  set (w1 := set_last_activity (Dict.set conn now) w).
  assert (G : Dict.get conn (last_activity w1) = Some now)
    by apply get_set_same.
  destruct (split_lines (buffer ++ data)) as [lines rest].
  destruct (command_lines_state conn username lines w1) as (w2 & -> & S).
  cbn [snd]. unfold server_state in S. injection S as _ _ L _ _ _.
  now rewrite L.
Qed.

(** C10.  In both loops a received line that strips to the empty
    string is skipped without a trace: the lines of a read are processed
    exactly as if the blank line were not among them (nothing is sent for
    it and no command is run), whatever comes before or after it.  A read
    that brings data still stamps the session: after the pass
    [last_activity] holds the clock reading of that read for the socket,
    in the login loop and in the main loop alike. *)
Theorem C10_blank_line_skipped_activity_still_stamped :
  forall (conn : Conn) (addr username raw : string) (pre post : list string)
         (buffer data : string) (now : Timestamp) (w : World),
    strip raw = "" ->
    login_lines conn (pre ++ raw :: post) w = login_lines conn (pre ++ post) w
    /\ command_lines conn username (pre ++ raw :: post) w
       = command_lines conn username (pre ++ post) w
    /\ login_lines conn [raw] w = (Normal None, w)
    /\ command_lines conn username [raw] w = (Normal tt, w)
    /\ Dict.get conn
         (last_activity (exec (login_iter conn addr (RecvData data now) buffer) w))
       = Some now
    /\ Dict.get conn
         (last_activity (exec (client_iter conn username (RecvData data now) buffer) w))
       = Some now.
Proof.
  intros conn addr username raw pre post buffer data now w B.
  split; [now apply login_lines_skip_blank|].
  split; [now apply command_lines_skip_blank|].
  split; [cbn [login_lines]; now rewrite B|].
  split; [cbn [command_lines]; unfold bind; now rewrite B|].
  split; [apply login_iter_stamps | apply client_iter_stamps].
Qed.

(** C10 at a concrete read: bob's handler receives three lines, the
    middle one blank, at time 55. *)
Lemma C10_witness :
  command_lines 2 "bob" (["PING"] ++ "   " :: ["PING"]) lobby
  = command_lines 2 "bob" (["PING"] ++ ["PING"]) lobby
  /\ command_lines 2 "bob" ["   "] lobby = (Normal tt, lobby)
  /\ Dict.get 2
       (last_activity
          (exec (client_iter 2 "bob" (RecvData (wire_line "   ") 55%Z) "") lobby))
     = Some 55%Z.
Proof.
  pose proof (C10_blank_line_skipped_activity_still_stamped
                2 "peer2" "bob" "   " ["PING"] ["PING"] "" (wire_line "   ")
                55%Z lobby eq_refl) as H.
  destruct H as (_ & A & _ & B & _ & C). exact (conj A (conj B C)).
Defined.

(* ================================================================== *)
(** ** The idle reaper *)

Lemma clients_to_remove_run (current_time : Timestamp) (w : World) :
  clients_to_remove current_time w = (Normal (idle_sessions current_time w), w).
Proof. reflexivity. Qed.

Lemma idle_sessions_conns (current_time : Timestamp) (w : World) :
  Dict.wf (last_activity w) ->
  NoDup (map fst (idle_sessions current_time w)).
Proof.
  unfold idle_sessions, Dict.wf, Dict.items, Dict.keys. rewrite map_map. cbn [fst].
  induction (last_activity w) as [|[c t] d IH]; cbn [map filter]; intros ND.
  - constructor.
  - inversion ND as [|? ? N ND']; subst.
    destruct (is_idle _ _ _); [|auto].
    cbn [map fst]. constructor; [|auto].
    intros I. apply N. apply in_map_iff in I. destruct I as (p & E & I).
    apply filter_In in I. apply in_map_iff. exists p. tauto.
Qed.

(** One eviction: the notice for a named session, then the teardown. *)
Lemma evict_spec (c : Conn) (username : option string) (w : World) :
  exists w',
    evict (c, username) w = (Normal tt, w')
    /\ clients w' = Dict.del c (clients w)
    /\ usernames w' = match named username with
                      | Some u => Dict.del u (usernames w)
                      | None => usernames w
                      end
    /\ last_activity w' = Dict.del c (last_activity w)
    /\ idle_timeout w' = idle_timeout w
    /\ closed w' = c :: closed w
    /\ broken w' = broken w
    /\ wire w' = wire w ++
         match named username with
         | Some u =>
             Packet c (wire_line "ERR idle-timeout") (sock_ok w c)
             :: map (fun x => Packet x (wire_line ("INFO " ++ u ++ " disconnected"))
                                     (negb (Nat.eqb x c) && sock_ok w x))
                    (Dict.keys (Dict.del c (clients w)))
         | None => []
         end.
Proof.
  assert (N : forall w0 : World,
    match username with
    | Some u =>
        if truthy u then
          print ("[SERVER] User '" ++ u ++ "' timed out (idle)") ;;
          try_except (_send c "ERR idle-timeout") (fun _ => ret tt)
        else ret tt
    | None => ret tt
    end w0
    = (Normal tt,
       match named username with
       | Some u =>
           after_send c "ERR idle-timeout"
             (set_console (fun l => l ++ [("[SERVER] User '" ++ u
                                           ++ "' timed out (idle)")%string]) w0)
       | None => w0
       end)).
  { intros w0. unfold named. destruct username as [u|]; [|reflexivity].
    destruct (truthy u); [|reflexivity].
    unfold bind, print, modify, try_except. now rewrite _send_run. }
  unfold evict, bind. rewrite N. clear N.
  destruct (named username) as [u|] eqn:E.
  - set (w0 := set_console _ w).
    destruct (_remove_client_spec c username (after_send c "ERR idle-timeout" w0))
      as (w' & -> & C & U & L & T & Cl & B & W).
    exists w'. split; [reflexivity|].
    destruct (after_send_fields c "ERR idle-timeout" w0) as (C0 & U0 & L0 & Cl0 & B0).
    rewrite C, U, L, T, Cl, B, W, E, C0, U0, L0, Cl0, B0, after_send_wire.
    repeat (split; [first [reflexivity
                          | unfold after_send; destruct (sock_ok w0 c); reflexivity]|]).
    change (wire w0) with (wire w). rewrite <- app_assoc. f_equal.
    cbn [app]. f_equal. apply map_ext. intros x. unfold wire_line.
    rewrite !append_assoc.
    rewrite (sock_ok_state x (after_send_state c "ERR idle-timeout" w0)).
    reflexivity.
  - destruct (_remove_client_spec c username w)
      as (w' & -> & C & U & L & T & Cl & B & W).
    exists w'. rewrite E in U, W. tauto.
Qed.

Lemma named_sessions_conns (l : list (Conn * option string)) (p : Conn * string) :
  In p (named_sessions l) -> In (fst p) (map fst l).
Proof.
  induction l as [|[c u] l IH]; cbn [named_sessions map fst]; [tauto|].
  destruct (named u) as [n|].
  - intros [<-|I]; [left; reflexivity | right; exact (IH I)].
  - intros I. right. exact (IH I).
Qed.

Lemma info_is_not_notice (u : string) (ok : Conn -> bool) (l : list Conn) :
  filter is_notice
         (map (fun x => Packet x (wire_line ("INFO " ++ u ++ " disconnected")) (ok x)) l)
  = [].
Proof. induction l as [|x l IH]; [reflexivity | exact IH]. Qed.

Lemma sock_ok_after_close (w w1 : World) (c x : Conn) :
  closed w1 = c :: closed w -> broken w1 = broken w -> x <> c ->
  sock_ok w1 x = sock_ok w x.
Proof.
  intros Cl B Ne. unfold sock_ok. rewrite Cl, B. cbn [memb].
  change (eqb x c) with (Nat.eqb x c).
  now rewrite (proj2 (Nat.eqb_neq x c) Ne).
Qed.

(** The removal loop of a reaper cycle over a snapshot of distinct
    sockets. *)
Lemma evict_all_spec (l : list (Conn * option string)) (w : World) :
  NoDup (map fst l) ->
  Dict.wf (clients w) -> Dict.wf (usernames w) -> Dict.wf (last_activity w) ->
  exists w' ps,
    for_each l evict w = (Normal tt, w')
    /\ wire w' = wire w ++ ps
    /\ broken w' = broken w
    /\ (forall c, Dict.get c (clients w')
                  = if memb c (map fst l) then None else Dict.get c (clients w))
    /\ (forall c, Dict.get c (last_activity w')
                  = if memb c (map fst l) then None
                    else Dict.get c (last_activity w))
    /\ (forall n, Dict.get n (usernames w')
                  = if memb n (map snd (named_sessions l)) then None
                    else Dict.get n (usernames w))
    /\ (forall c, memb c (closed w') = memb c (map fst l) || memb c (closed w))
    /\ filter is_notice ps
       = map (fun p => Packet (fst p) (wire_line "ERR idle-timeout")
                              (sock_ok w (fst p)))
             (named_sessions l)
    /\ (forall o, In o (Dict.keys (clients w)) -> ~ In o (map fst l) ->
                  sock_ok w o = true ->
                  map payload (filter (fun p => Nat.eqb (dst p) o && delivered p) ps)
                  = map (fun p => wire_line ("INFO " ++ snd p ++ " disconnected"))
                        (named_sessions l)).
Proof.
  revert w. induction l as [|[c username] l IH]; intros w ND Wc Wu Wl.
  - exists w, []. cbn [for_each map memb named_sessions filter].
    rewrite app_nil_r. repeat split; reflexivity.
  - cbn [map fst] in ND. inversion ND as [|? ? Nc ND']; subst.
    cbn [for_each]. unfold bind.
    destruct (evict_spec c username w)
      as (w1 & -> & C1 & U1 & L1 & _ & Cl1 & B1 & W1).
    assert (Wc1 : Dict.wf (clients w1)) by (rewrite C1; now apply wf_del).
    assert (Wl1 : Dict.wf (last_activity w1))
      by (rewrite L1; now apply wf_del).
    assert (Wu1 : Dict.wf (usernames w1))
      by (rewrite U1; destruct (named username); [now apply wf_del | exact Wu]).
    destruct (IH w1 ND' Wc1 Wu1 Wl1)
      as (w' & ps & -> & W & B & C & L & U & Cl & Nt & Ob).
    eexists w', _. split; [reflexivity|].
    split; [rewrite W, W1, <- app_assoc; reflexivity|].
    split; [congruence|].
    split; [|split; [|split; [|split; [|split]]]].
    + intros x. rewrite C, C1. cbn [map fst memb].
      change (eqb x c) with (Nat.eqb x c).
      destruct (Nat.eqb_spec x c) as [->|Ne]; cbn [orb].
      * rewrite get_del_same by exact Wc. now destruct (memb c (map fst l)).
      * rewrite get_del_other by congruence. reflexivity.
    + intros x. rewrite L, L1. cbn [map fst memb].
      change (eqb x c) with (Nat.eqb x c).
      destruct (Nat.eqb_spec x c) as [->|Ne]; cbn [orb].
      * rewrite get_del_same by exact Wl. now destruct (memb c (map fst l)).
      * rewrite get_del_other by congruence. reflexivity.
    + intros n. rewrite U, U1. cbn [named_sessions].
      destruct (named username) as [u|]; [|reflexivity].
      cbn [map snd memb]. change (eqb n u) with (String.eqb n u).
      destruct (String.eqb_spec n u) as [->|Ne]; cbn [orb].
      * rewrite get_del_same by exact Wu.
        now destruct (memb u (map snd (named_sessions l))).
      * rewrite get_del_other by congruence. reflexivity.
    + intros x. rewrite Cl, Cl1. cbn [map fst memb].
      destruct (eqb x c), (memb x (map fst l)), (memb x (closed w)); reflexivity.
    + rewrite filter_app, Nt. cbn [named_sessions].
      assert (Same : map (fun p : Conn * string =>
                            Packet (fst p) (wire_line "ERR idle-timeout")
                                   (sock_ok w1 (fst p))) (named_sessions l)
                     = map (fun p : Conn * string =>
                              Packet (fst p) (wire_line "ERR idle-timeout")
                                     (sock_ok w (fst p))) (named_sessions l)).
      { apply map_ext_in. intros p I. f_equal.
        apply (sock_ok_after_close w w1 c); [assumption | assumption |].
        intros E. apply Nc. rewrite <- E. now apply named_sessions_conns. }
      rewrite Same. destruct (named username) as [u|]; [|reflexivity].
      cbn [filter]. change (is_notice (Packet c _ _)) with true. cbv iota.
      rewrite info_is_not_notice. reflexivity.
    + intros o Io No Oo.
      assert (Ne : o <> c) by (intros ->; apply No; now left).
      assert (No' : ~ In o (map fst l)) by (intros I; apply No; now right).
      assert (Io1 : In o (Dict.keys (clients w1))).
      { rewrite C1, keys_del by exact Wc. apply filter_In. split; [exact Io|].
        now rewrite eqb_neq. }
      assert (Oo1 : sock_ok w1 o = true)
        by (rewrite (sock_ok_after_close w w1 c); assumption).
      rewrite filter_app, map_app, (Ob o Io1 No' Oo1). cbn [named_sessions].
      destruct (named username) as [u|]; [|reflexivity].
      cbn [filter dst]. rewrite (proj2 (Nat.eqb_neq c o)) by congruence. cbn [andb].
      rewrite broadcast_inbox by (apply wf_del; exact Wc).
      rewrite <- C1, (proj2 (memb_In o (Dict.keys (clients w1))) Io1).
      rewrite (proj2 (Nat.eqb_neq o c) Ne), Oo. reflexivity.
Qed.

Lemma since_app (w w' : World) (ps : list packet) :
  wire w' = wire w ++ ps -> since w w' = ps.
Proof.
  intros E. unfold since. rewrite E.
  now rewrite skipn_app, skipn_all, Nat.sub_diag.
Qed.

(** C7 as the specification states it fails for a session that has not
    logged in.  In
    [lobby_and_guest] the guest on socket 3 was last heard of at time 0; at
    time 70 it is idle (70 - 0 > 60) and the reaper tears it down, but
    nothing at all is sent to it: the notice is behind [if username:]. *)
Lemma C7_no_notice_for_unnamed_session :
  Dict.get 3 (last_activity lobby_and_guest) = Some 0%Z
  /\ is_idle 70 0 (idle_timeout lobby_and_guest) = true
  /\ In (3, None) (idle_sessions 70%Z lobby_and_guest)
  /\ sent_to 3 (exec (reaper_cycle 70%Z) lobby_and_guest) = []
  /\ Dict.get 3 (last_activity (exec (reaper_cycle 70%Z) lobby_and_guest)) = None
  /\ memb 3 (closed (exec (reaper_cycle 70%Z) lobby_and_guest)) = true.
Proof.
  repeat split; try reflexivity. right. left. reflexivity.
Qed.

(** C7 (amended).  A reaper cycle at clock reading [now] takes the
    sessions whose last activity is more than the idle timeout ago, and for
    each of them:
    - if the session has a name, it hands [ERR idle-timeout] to the
      session's socket once, before the socket is closed; a session without
      a name gets no notice;
    - whether or not that notice went through, it tears the session down:
      the socket leaves [clients] and [last_activity], its name leaves
      [usernames], and the socket is closed.
    Within the cycle, every logged-in client that stays (not idle, socket
    usable) receives [INFO <name> disconnected] once for each named session
    evicted, in the order of eviction, and nothing else.  All but this last
    part holds whether or not any such client is there. *)
Theorem C7_reaper_evicts_idle_notice_only_for_named :
  forall (now : Timestamp) (w : World),
    Dict.wf (clients w) -> Dict.wf (usernames w) -> Dict.wf (last_activity w) ->
    let idle := idle_sessions now w in
    let w' := exec (reaper_cycle now) w in
    result (reaper_cycle now) w = Normal tt
    /\ (forall conn username,
          In (conn, username) idle <->
          exists last, In (conn, last) (Dict.items (last_activity w))
                       /\ (now - last > idle_timeout w)%Z
                       /\ username = Dict.get conn (clients w))
    /\ Forall (fun p => Dict.get (fst p) (clients w') = None
                        /\ Dict.get (fst p) (last_activity w') = None
                        /\ memb (fst p) (closed w') = true) idle
    /\ Forall (fun p => Dict.get (snd p) (usernames w') = None)
              (named_sessions idle)
    /\ filter is_notice (since w w')
       = map (fun p => Packet (fst p) (wire_line "ERR idle-timeout")
                              (sock_ok w (fst p)))
             (named_sessions idle)
    /\ forall o : Conn,
         In o (Dict.keys (clients w)) ->
         ~ In o (map fst idle) ->
         sock_ok w o = true ->
         inbox o w'
         = inbox o w
           ++ map (fun p => wire_line ("INFO " ++ snd p ++ " disconnected"))
                  (named_sessions idle).
Proof.
  intros now w Wc Wu Wl idle w'. subst w'.
  unfold result, exec, reaper_cycle, bind. rewrite clients_to_remove_run.
  fold idle.
  destruct (evict_all_spec idle w (idle_sessions_conns now w Wl) Wc Wu Wl)
    as (w' & ps & -> & W & B & C & L & U & Cl & Nt & Ob).
  cbn [fst snd]. split; [reflexivity|]. split.
  { intros conn username. unfold idle, idle_sessions. rewrite in_map_iff. split.
    - intros ([c last] & E & I). apply filter_In in I. destruct I as [I T].
      cbn [fst snd] in *. injection E as <- <-. exists last.
      split; [exact I|]. split; [|reflexivity].
      unfold is_idle in T. apply Z.ltb_lt in T. lia.
    - intros (last & I & T & ->). exists (conn, last). split; [reflexivity|].
      apply filter_In. split; [exact I|]. unfold is_idle. cbn [snd].
      apply Z.ltb_lt. lia. }
  split.
  { apply Forall_forall. intros p I.
    assert (M : memb (fst p) (map fst idle) = true)
      by (apply memb_In; now apply in_map).
    rewrite C, L, Cl, M. repeat split. }
  split.
  { apply Forall_forall. intros p I.
    assert (M : memb (snd p) (map snd (named_sessions idle)) = true)
      by (apply memb_In; now apply in_map).
    now rewrite U, M. }
  split; [rewrite (since_app w w' ps W); exact Nt|].
  intros o Io No Oo.
  unfold inbox. rewrite W, filter_app, map_app. f_equal.
  apply Ob; assumption.
Qed.

(** C7 at concrete cycles.  At time 70 over [lobby_and_guest] alice and
    the guest are idle and bob stays.  At time 200 over [lobby] both users
    are idle and nobody stays: both are given notice and torn down. *)
Lemma C7_witness :
  (filter is_notice
          (since lobby_and_guest (exec (reaper_cycle 70%Z) lobby_and_guest))
   = [Packet 1 (wire_line "ERR idle-timeout") true]
   /\ inbox 2 (exec (reaper_cycle 70%Z) lobby_and_guest)
      = [wire_line "INFO alice disconnected"])
  /\ filter is_notice (since lobby (exec (reaper_cycle 200%Z) lobby))
     = [Packet 1 (wire_line "ERR idle-timeout") true;
        Packet 2 (wire_line "ERR idle-timeout") true].
Proof.
  assert (Wc : Dict.wf (clients lobby_and_guest))
    by (repeat constructor; simpl; intuition discriminate).
  assert (Wu : Dict.wf (usernames lobby_and_guest))
    by (repeat constructor; simpl; intuition discriminate).
  assert (Wl : Dict.wf (last_activity lobby_and_guest))
    by (repeat constructor; simpl; intuition discriminate).
  assert (Wl' : Dict.wf (last_activity lobby))
    by (repeat constructor; simpl; intuition discriminate).
  assert (Io : In 2 (Dict.keys (clients lobby_and_guest)))
    by (right; left; reflexivity).
  assert (No : ~ In 2 (map fst (idle_sessions 70%Z lobby_and_guest)))
    by (simpl; intuition discriminate).
  pose proof (C7_reaper_evicts_idle_notice_only_for_named
                70%Z lobby_and_guest Wc Wu Wl) as H.
  pose proof (C7_reaper_evicts_idle_notice_only_for_named
                200%Z lobby Wc Wu Wl') as H'.
  cbv zeta in H, H'. destruct H as (_ & _ & _ & _ & A & B).
  destruct H' as (_ & _ & _ & _ & A' & _).
  exact (conj (conj A (B 2 Io No eq_refl)) A').
Defined.

(* ================================================================== *)
(** ** The dictionaries stay well formed *)

(** The theorems above that count packets assume [registry_wf].  That is
    so in a fresh server and every operation of the server keeps it so. *)

Lemma registry_wf_init (timeout : Z) : registry_wf (init timeout).
Proof. repeat split; constructor. Qed.

Lemma registry_wf_state (w w' : World) :
  server_state w' = server_state w -> registry_wf w -> registry_wf w'.
Proof.
  unfold server_state, registry_wf. intros E. injection E as -> -> -> _ _ _.
  tauto.
Qed.

Lemma registry_wf_touch (conn : Conn) (now : Timestamp) (w : World) :
  registry_wf w -> registry_wf (set_last_activity (Dict.set conn now) w).
Proof.
  intros (Wc & Wu & Wl). repeat split; try assumption.
  cbn [last_activity set_last_activity]. now apply wf_set.
Qed.

Lemma registry_wf_login_lines (conn : Conn) (lines : list string) (w : World) :
  registry_wf w -> registry_wf (exec (login_lines conn lines) w).
Proof.
  intros (Wc & Wu & Wl). unfold exec.
  pose proof (login_lines_spec conn lines w) as P. unfold login_post in P.
  destruct (login_lines conn lines w) as [[[u|]|e] w']; [| |contradiction];
    cbn [snd]; unfold registry_wf.
  - destruct P as (_ & _ & -> & -> & -> & _).
    repeat split; [now apply wf_set | now apply wf_set | assumption].
  - unfold registry in P. injection P as -> -> ->. tauto.
Qed.

Lemma registry_wf_remove_client (conn : Conn) (username : option string)
    (w : World) :
  registry_wf w -> registry_wf (exec (_remove_client conn username) w).
Proof.
  intros (Wc & Wu & Wl). unfold exec.
  destruct (_remove_client_spec conn username w)
    as (w' & -> & C & U & L & _).
  cbn [snd]. unfold registry_wf. rewrite C, U, L.
  repeat split; [now apply wf_del | | now apply wf_del].
  destruct (named username); [now apply wf_del | assumption].
Qed.

Lemma registry_wf_evict_all (l : list (Conn * option string)) (w : World) :
  registry_wf w -> registry_wf (exec (for_each l evict) w).
Proof.
  revert w. induction l as [|[c username] l IH]; intros w Wf; [exact Wf|].
  unfold exec in *. cbn [for_each]. unfold bind.
  destruct (evict_spec c username w) as (w1 & -> & C & U & L & _).
  apply IH. destruct Wf as (Wc & Wu & Wl). unfold registry_wf.
  rewrite C, U, L. repeat split; [now apply wf_del | | now apply wf_del].
  destruct (named username); [now apply wf_del | assumption].
Qed.

Lemma registry_wf_login_iter (conn : Conn) (addr : string) (r : recv_result)
    (buffer : string) (w : World) :
  registry_wf w -> registry_wf (exec (login_iter conn addr r buffer) w).
Proof.
  intros Wf. destruct r as [data now| |e].
  - unfold exec, login_iter, try_except, recv, bind, ret, touch, with_lock, modify.
    cbv beta iota.
    destruct (split_lines (buffer ++ data)) as [lines rest].
    pose proof (registry_wf_login_lines conn lines _
                  (registry_wf_touch conn now w Wf)) as W1.
    pose proof (login_lines_spec conn lines
                  (set_last_activity (Dict.set conn now) w)) as P.
    unfold exec in W1. unfold login_post in P.
    destruct (login_lines conn lines _) as [[[u|]|e] w2];
      [exact W1 | exact W1 | contradiction].
  - exact Wf.
  - destruct e; exact Wf.
Qed.

Lemma registry_wf_client_iter (conn : Conn) (username : string)
    (r : recv_result) (buffer : string) (w : World) :
  registry_wf w -> registry_wf (exec (client_iter conn username r buffer) w).
Proof.
  intros Wf. destruct r as [data now| |e].
  - unfold exec, client_iter, try_except, recv, bind, ret, touch, with_lock, modify.
    cbv beta iota.
    destruct (split_lines (buffer ++ data)) as [lines rest].
    destruct (command_lines_state conn username lines
                (set_last_activity (Dict.set conn now) w)) as (w2 & -> & S).
    cbn [snd]. apply (registry_wf_state _ _ S).
    now apply registry_wf_touch.
  - exact Wf.
  - destruct e; exact Wf.
Qed.

Lemma registry_wf_run_op (o : op) (w : World) :
  registry_wf w -> registry_wf (exec (run_op o) w).
Proof.
  intros Wf. destruct o as [conn now|conn addr r buffer|conn username r buffer
                           |conn username|current_time]; cbn [run_op].
  - now apply registry_wf_touch.
  - pose proof (registry_wf_login_iter conn addr r buffer w Wf) as H.
    unfold exec, bind, ret in *.
    destruct (login_iter conn addr r buffer w) as [[s|e] w']; exact H.
  - pose proof (registry_wf_client_iter conn username r buffer w Wf) as H.
    unfold exec, bind, ret in *.
    destruct (client_iter conn username r buffer w) as [[s|e] w']; exact H.
  - now apply registry_wf_remove_client.
  - unfold exec, reaper_cycle, bind. rewrite clients_to_remove_run.
    now apply registry_wf_evict_all.
Qed.

(** Every world the server reaches has well-formed dictionaries. *)
Lemma registry_wf_reachable (timeout : Z) (os : list op) :
  registry_wf (exec (run_ops os) (init timeout)).
Proof.
  generalize (registry_wf_init timeout). generalize (init timeout).
  induction os as [|o os IH]; intros w Wf; [exact Wf|].
  pose proof (registry_wf_run_op o w Wf) as H.
  unfold exec in *. cbn [run_ops]. unfold bind.
  destruct (run_op o w) as [[[]|e] w']; [now apply IH | exact H].
Qed.

(* ================================================================== *)
(** ** Remarks on the parsing *)

Lemma rstrip_empty_lstrip (s : string) : rstrip s = "" -> lstrip s = "".
Proof.
  induction s as [|c s IH]; cbn [rstrip lstrip]; [reflexivity|].
  destruct (rstrip s) eqn:R; [|discriminate].
  destruct (isspace c); [intros _; now apply IH | discriminate].
Qed.

Lemma lstrip_head (s t : string) (c : ascii) :
  lstrip s = String c t -> isspace c = false.
Proof.
  induction s as [|x s IH]; cbn [lstrip]; [discriminate|].
  destruct (isspace x) eqn:E; [exact IH|].
  intros H. injection H as <- _. exact E.
Qed.

Lemma rstrip_idem (s : string) : rstrip (rstrip s) = rstrip s.
Proof.
  induction s as [|c s IH]; cbn [rstrip]; [reflexivity|].
  destruct (rstrip s) as [|y r] eqn:R.
  - destruct (isspace c) eqn:E; [reflexivity|]. cbn [rstrip]. now rewrite E.
  - cbn [rstrip] in *. rewrite IH. reflexivity.
Qed.

Lemma startswith_split (p s : string) :
  startswith p s = true -> s = (p ++ slice_from (String.length p) s)%string.
Proof.
  revert s. induction p as [|a p IH]; intros s; cbn [startswith]; [reflexivity|].
  destruct s as [|b s]; [discriminate|].
  intros H. apply andb_true_iff in H. destruct H as [E H].
  apply Ascii.eqb_eq in E. subst b. cbn. f_equal. now apply IH.
Qed.

Lemma lstrip_empty_rstrip (s : string) : lstrip s = "" -> rstrip s = "".
Proof.
  induction s as [|c s IH]; cbn [lstrip rstrip]; [reflexivity|].
  destruct (isspace c) eqn:E; [|discriminate].
  intros H. now rewrite (IH H).
Qed.

(** In the login loop the line is stripped before it is parsed, so a line
    that starts with [LOGIN ] always carries a non-empty name: the
    [ERR invalid-username] branch of lines 204-206 is never taken. *)
Lemma login_name_never_empty (raw : string) :
  startswith "LOGIN " (strip raw) = true ->
  truthy (strip (slice_from 6 (strip raw))) = true.
Proof.
  intros P. pose proof (startswith_split "LOGIN " (strip raw) P) as E.
  cbn [String.length] in E.
  assert (Fix : rstrip (strip raw) = strip raw) by apply rstrip_idem.
  revert E Fix. generalize (slice_from 6 (strip raw)) as t.
  generalize (strip raw) as s. intros s t -> Fix.
  destruct (rstrip t) as [|y r] eqn:R.
  - exfalso. cbn [append rstrip] in Fix. rewrite R in Fix. cbn in Fix.
    discriminate.
  - unfold strip. destruct (lstrip t) as [|c t'] eqn:L.
    + apply lstrip_empty_rstrip in L. congruence.
    + pose proof (lstrip_head _ _ _ L) as Ns. cbn [rstrip].
      destruct (rstrip t'); [rewrite Ns|]; reflexivity.
Qed.

(** A line [DM <user> <text>] whose user holds no space, and which is
    already stripped, is parsed into exactly that user and that text. *)
Lemma dm_line_parses (user text : string) :
  split_once SP user = None ->
  strip (user ++ " " ++ text) = (user ++ " " ++ text)%string ->
  startswith "DM " ("DM " ++ user ++ " " ++ text) = true
  /\ split1 SP (strip (slice_from 3 ("DM " ++ user ++ " " ++ text)))
     = [user; text].
Proof.
  intros N S. split; [reflexivity|].
  change (slice_from 3 ("DM " ++ user ++ " " ++ text))
    with (user ++ " " ++ text)%string.
  rewrite S. unfold split1.
  assert (E : split_once SP (user ++ " " ++ text) = Some (user, text)).
  { clear S. induction user as [|c user IH]; [reflexivity|].
    cbn [append split_once] in *.
    destruct (Ascii.eqb c SP); [discriminate|].
    destruct (split_once SP user) as [[a b]|]; [discriminate|].
    now rewrite IH. }
  now rewrite E.
Qed.

(* ================================================================== *)
(** ** Further properties: commands *)

Lemma who_loop_sends (conn : Conn) (users : list string) (w : World) :
  exists w',
    for_each users (fun user => _send conn ("USER " ++ user)) w = (Normal tt, w')
    /\ sends w w' (map (fun user => Packet conn (wire_line ("USER " ++ user))
                                           (sock_ok w conn)) users).
Proof.
  revert w. induction users as [|user users IH]; intros w; cbn [for_each map].
  - exists w. split; [reflexivity | apply sends_refl].
  - unfold bind. rewrite _send_run.
    destruct (IH (after_send conn ("USER " ++ user) w)) as (w' & R & S).
    exists w'. split; [exact R|].
    rewrite (sock_ok_state conn (after_send_state conn ("USER " ++ user) w)) in S.
    change (?x :: ?l) with ([x] ++ l).
    eapply sends_trans; [apply after_send_sends | exact S].
Qed.

(** X1.  [WHO] answers the requester, and nobody else, with one
    [USER <name>] line for each name in [usernames], in the order the names
    were bound; it changes nothing in the server. *)
Theorem X1_who_lists_each_name_to_requester :
  forall (conn : Conn) (username : string) (w : World),
    let w' := exec (_process_command conn username "WHO") w in
    result (_process_command conn username "WHO") w = Normal tt
    /\ server_state w' = server_state w
    /\ since w w'
       = map (fun user => Packet conn (wire_line ("USER " ++ user))
                                 (sock_ok w conn))
             (Dict.keys (usernames w)).
Proof.
  intros conn username w w'. subst w'. unfold result, exec.
  change (_process_command conn username "WHO" w)
    with (for_each (Dict.keys (usernames w))
                   (fun user => _send conn ("USER " ++ user)) w).
  destruct (who_loop_sends conn (Dict.keys (usernames w)) w) as (w' & -> & S).
  cbn [fst snd]. split; [reflexivity|]. split; [apply S|].
  apply (sends_since S).
Qed.

(** X2.  No command line, whatever it holds, raises an exception or
    changes the dictionaries, the idle timeout or the state of any socket:
    all a command can do is hand packets to [sendall] and print. *)
Theorem X2_commands_never_raise_nor_change_server_state :
  forall (conn : Conn) (username line : string) (w : World),
    result (_process_command conn username line) w = Normal tt
    /\ server_state (exec (_process_command conn username line) w)
       = server_state w.
Proof.
  intros conn username line w. unfold result, exec.
  destruct (_process_command_state conn username line w) as (w' & -> & S).
  split; [reflexivity | exact S].
Qed.

(* ================================================================== *)
(** ** Further properties: shutdown *)

Lemma close_loop_spec (conns : list Conn) (w : World) :
  exists w',
    for_each conns (fun conn => try_except (close conn) (fun _ => ret tt)) w
    = (Normal tt, w')
    /\ registry w' = registry w
    /\ idle_timeout w' = idle_timeout w
    /\ broken w' = broken w
    /\ wire w' = wire w
    /\ console w' = console w
    /\ forall c, memb c (closed w') = memb c conns || memb c (closed w).
Proof.
  revert w. induction conns as [|x conns IH]; intros w; cbn [for_each].
  - exists w. repeat split.
  - unfold bind, try_except, close, modify.
    destruct (IH (set_closed (fun l => x :: l) w))
      as (w' & R & Rg & T & B & W & Co & Cl).
    exists w'. split; [exact R|]. repeat (split; [assumption|]).
    intros c. rewrite Cl. cbn [memb closed set_closed].
    destruct (eqb c x), (memb c conns), (memb c (closed w)); reflexivity.
Qed.

Lemma close_clients_spec (w : World) :
  exists w',
    close_clients w = (Normal tt, w')
    /\ clients w' = []
    /\ usernames w' = []
    /\ last_activity w' = last_activity w
    /\ wire w' = wire w
    /\ forall c, memb c (closed w')
                 = memb c (Dict.keys (clients w)) || memb c (closed w).
Proof.
  unfold close_clients, with_lock, bind, gets.
  destruct (close_loop_spec (Dict.keys (clients w)) w)
    as (w1 & -> & Rg & T & B & W & Co & Cl).
  unfold modify. eexists. split; [reflexivity|].
  unfold registry in Rg. injection Rg as _ _ L.
  repeat (split; [first [reflexivity | assumption]|]). exact Cl.
Qed.

Lemma stop_spec (s : Server) :
  fst (stop s) = Normal tt
  /\ running (snd (stop s)) = false
  /\ clients (world (snd (stop s))) = []
  /\ usernames (world (snd (stop s))) = []
  /\ last_activity (world (snd (stop s))) = last_activity (world s)
  /\ wire (world (snd (stop s))) = wire (world s)
  /\ forall c : Conn,
       memb c (closed (world (snd (stop s))))
       = memb c (Dict.keys (clients (world s)))
         || match server_socket s with
            | Some sock => Nat.eqb c sock
            | None => false
            end
         || memb c (closed (world s)).
Proof.
  unfold stop. cbv zeta. unfold bind.
  destruct (close_clients_spec (world s)) as (w1 & -> & C & U & L & W & Cl).
  destruct (server_socket s) as [sock|];
    unfold bind, try_except, close, print, modify, ret;
    cbn [fst snd world running clients usernames last_activity wire closed
         set_clients set_usernames set_closed set_console].
  - repeat (split; [first [reflexivity | assumption]|]).
    intros c. cbn [memb]. rewrite Cl. change (eqb c sock) with (Nat.eqb c sock).
    destruct (memb c (Dict.keys (clients (world s)))), (Nat.eqb c sock),
      (memb c (closed (world s))); reflexivity.
  - repeat (split; [first [reflexivity | assumption]|]).
    intros c. rewrite Cl.
    destruct (memb c (Dict.keys (clients (world s)))),
      (memb c (closed (world s))); reflexivity.
Qed.

(** X3.  [stop] never raises.  It clears the running flag, closes the
    socket of every logged-in client and the listening socket, and empties
    [clients] and [usernames].  It sends nothing to anybody, it does not
    close the sockets of connections that have not logged in, and it leaves
    [last_activity] as it was. *)
Theorem X3_stop_closes_clients_and_clears_names :
  forall (s : Server),
    let s' := snd (stop s) in
    fst (stop s) = Normal tt
    /\ running s' = false
    /\ clients (world s') = []
    /\ usernames (world s') = []
    /\ last_activity (world s') = last_activity (world s)
    /\ wire (world s') = wire (world s)
    /\ forall c : Conn,
         memb c (closed (world s'))
         = memb c (Dict.keys (clients (world s)))
           || match server_socket s with
              | Some sock => Nat.eqb c sock
              | None => false
              end
           || memb c (closed (world s)).
Proof. intros s s'. subst s'. apply stop_spec. Qed.



(* ================================================================== *)
(** ** Further properties: the login loop *)

Lemma login_lines_replies (conn : Conn) (lines : list string) (w : World) :
  exists ps,
    wire (exec (login_lines conn lines) w) = wire w ++ ps
    /\ Forall (login_reply conn) ps.
Proof.
  revert w. induction lines as [|raw lines IH]; intros w.
  - exists []. split; [symmetry; apply app_nil_r | constructor].
  - unfold exec in *. cbn [login_lines].
    destruct (negb (truthy (strip raw))) eqn:B; [apply IH|].
    unfold bind. rewrite login_line_run.
    assert (Step : forall message o,
              (payload (Packet conn (wire_line message) (sock_ok w conn))
               = wire_line "OK"
               \/ payload (Packet conn (wire_line message) (sock_ok w conn))
                  = wire_line "ERR username-taken"
               \/ payload (Packet conn (wire_line message) (sock_ok w conn))
                  = wire_line "ERR must-login-first") ->
              exists ps,
                wire (snd (match o with
                           | Some username => ret (Some username)
                           | None => login_lines conn lines
                           end (after_send conn message w))) = wire w ++ ps
                /\ Forall (login_reply conn) ps).
    { intros message o Ok.
      assert (P0 : login_reply conn (Packet conn (wire_line message) (sock_ok w conn)))
        by (split; [reflexivity | exact Ok]).
      destruct o as [username|].
      - exists [Packet conn (wire_line message) (sock_ok w conn)].
        split; [apply after_send_wire | now constructor].
      - destruct (IH (after_send conn message w)) as (ps & W & F).
        exists (Packet conn (wire_line message) (sock_ok w conn) :: ps).
        split; [|now constructor].
        rewrite W, after_send_wire, <- app_assoc. reflexivity. }
    destruct (startswith "LOGIN " (strip raw)) eqn:P; cbv zeta.
    + rewrite (login_name_never_empty raw P). cbn [negb].
      destruct (Dict.mem (strip (slice_from 6 (strip raw))) (usernames w)).
      * apply (Step "ERR username-taken" None). right. left. reflexivity.
      * set (w1 := set_usernames _ _).
        cbn [snd ret]. exists [Packet conn (wire_line "OK") (sock_ok w conn)].
        split; [apply (after_send_wire conn "OK" w1) | repeat constructor].
    + apply (Step "ERR must-login-first" None). right. right. reflexivity.
Qed.

(** X5.  Whatever lines arrive before login, every packet the login loop
    sends goes to the connection itself and is [OK], [ERR username-taken]
    or [ERR must-login-first].  In particular [ERR invalid-username] is
    never sent: the line is stripped before it is parsed, so a line that
    starts with [LOGIN ] always has a name. *)
Theorem X5_login_sends_only_three_replies :
  forall (conn : Conn) (lines : list string) (w : World),
    Forall (login_reply conn) (since w (exec (login_lines conn lines) w))
    /\ ~ In (wire_line "ERR invalid-username")
            (map payload (since w (exec (login_lines conn lines) w))).
Proof.
  intros conn lines w.
  destruct (login_lines_replies conn lines w) as (ps & W & F).
  rewrite (since_app _ _ _ W). split; [exact F|].
  intros I. apply in_map_iff in I. destruct I as (p & E & I).
  rewrite Forall_forall in F. destruct (F p I) as (_ & [H|[H|H]]);
    rewrite H in E; discriminate.
Qed.

Lemma login_lines_stop_at_success (conn : Conn) (lines more : list string)
    (w w' : World) (u : string) :
  login_lines conn lines w = (Normal (Some u), w') ->
  login_lines conn (lines ++ more) w = (Normal (Some u), w').
Proof.
  revert w. induction lines as [|raw lines IH]; intros w; cbn [app login_lines].
  - unfold ret. discriminate.
  - destruct (negb (truthy (strip raw))); [apply IH|].
    unfold bind. destruct (login_line conn (strip raw) w) as [[[v|]|e] w1];
      [trivial | apply IH | trivial].
Qed.

(** X6.  Once a [LOGIN] line is accepted, whatever came after it in the
    same read is dropped: [_handle_login] returns at once and the main loop
    starts from an empty buffer, so the read has the same outcome and leaves
    the same world as if it had ended with the [LOGIN] line. *)
Theorem X6_lines_after_accepted_login_are_dropped :
  forall (conn : Conn) (addr buffer data data' : string) (now : Timestamp)
         (lines more : list string) (rest rest' u : string) (w w' : World),
    split_lines (buffer ++ data) = (lines, rest) ->
    split_lines (buffer ++ data') = (lines ++ more, rest') ->
    login_lines conn lines (exec (touch conn now) w) = (Normal (Some u), w') ->
    login_iter conn addr (RecvData data' now) buffer w
    = (Normal (Return (Some u)), w')
    /\ login_iter conn addr (RecvData data now) buffer w
       = (Normal (Return (Some u)), w').
Proof.
  intros conn addr buffer data data' now lines more rest rest' u w w' S S' L.
  pose proof (login_lines_stop_at_success conn lines more _ _ u L) as L'.
  unfold exec in L, L'. rewrite touch_run in L, L'. cbn [snd] in L, L'.
  unfold login_iter, try_except, recv, bind, ret.
  rewrite touch_run, S, S', L, L'. split; reflexivity.
Qed.

(** X6 at a concrete read: a guest on socket 3 sends [LOGIN carol] and a
    message in one read. *)
Lemma X6_witness :
  login_iter 3 "peer3"
             (RecvData (wire_line "LOGIN carol" ++ wire_line "MSG early") 5%Z)
             "" lobby_and_guest
  = login_iter 3 "peer3" (RecvData (wire_line "LOGIN carol") 5%Z)
               "" lobby_and_guest.
Proof.
  pose proof (X6_lines_after_accepted_login_are_dropped
                3 "peer3" "" (wire_line "LOGIN carol")
                (wire_line "LOGIN carol" ++ wire_line "MSG early") 5%Z
                ["LOGIN carol"] ["MSG early"] "" "" "carol" lobby_and_guest
                _ eq_refl eq_refl eq_refl) as H.
  destruct H as [A B]. rewrite A, B. reflexivity.
Defined.

(* ================================================================== *)
(** ** Further properties: one name, one session *)

Lemma consistent_unique (w : World) (c1 c2 : Conn) (u : string) :
  consistent w ->
  Dict.get c1 (clients w) = Some u -> Dict.get c2 (clients w) = Some u ->
  c1 = c2.
Proof.
  intros K G1 G2. apply K in G1. apply K in G2. congruence.
Qed.

Lemma consistent_bind (conn : Conn) (u : string) (w w' : World) :
  consistent w ->
  Dict.mem u (usernames w) = false ->
  clients w' = Dict.set conn u (clients w) ->
  usernames w' = Dict.set u conn (usernames w) ->
  consistent w'.
Proof.
  intros K Free C U c v G. rewrite C in G. rewrite U.
  destruct (Nat.eq_dec conn c) as [->|Ne].
  - rewrite get_set_same in G. injection G as <-. apply get_set_same.
  - rewrite get_set_other in G by exact Ne. apply K in G.
    rewrite get_set_other; [exact G|].
    intros ->. unfold Dict.mem in Free. now rewrite G in Free.
Qed.

Lemma consistent_unbind (conn : Conn) (w w' : World) :
  Dict.wf (clients w) -> consistent w ->
  clients w' = Dict.del conn (clients w) ->
  usernames w' = match named (Dict.get conn (clients w)) with
                 | Some u => Dict.del u (usernames w)
                 | None => usernames w
                 end ->
  consistent w'.
Proof.
  intros Wc K C U c v G. rewrite C in G. rewrite U.
  destruct (Nat.eq_dec conn c) as [->|Ne].
  - rewrite get_del_same in G by exact Wc. discriminate.
  - rewrite get_del_other in G by exact Ne. pose proof (K _ _ G) as Gv.
    destruct (Dict.get conn (clients w)) as [u0|] eqn:G0; cbn [named];
      [|exact Gv].
    destruct (truthy u0); [|exact Gv].
    rewrite get_del_other; [exact Gv|].
    intros ->. apply K in G0. congruence.
Qed.

(** X7.  Logging in keeps names unique.  If every name in [clients] is
    bound in [usernames] to its own socket, then after any lines of the
    login loop of any connection that is still so, and no two sockets in
    [clients] carry the same name. *)
Theorem X7_login_keeps_names_unique :
  forall (conn : Conn) (lines : list string) (w : World),
    consistent w ->
    let w' := exec (login_lines conn lines) w in
    consistent w'
    /\ forall (c1 c2 : Conn) (u : string),
         Dict.get c1 (clients w') = Some u ->
         Dict.get c2 (clients w') = Some u -> c1 = c2.
Proof.
  intros conn lines w K w'.
  assert (K' : consistent w').
  { subst w'. unfold exec.
    pose proof (login_lines_spec conn lines w) as P. unfold login_post in P.
    destruct (login_lines conn lines w) as [[[u|]|e] w1]; [| |contradiction];
      cbn [snd].
    - destruct P as (_ & Free & C & U & _).
      exact (consistent_bind conn u w w1 K Free C U).
    - unfold registry in P. injection P as C U _.
      intros c v G. rewrite C in G. rewrite U. now apply K. }
  split; [exact K'|]. intros c1 c2 u. now apply consistent_unique.
Qed.

(** X7 at a concrete login: the guest on socket 3 tries alice's name and
    then its own. *)
Lemma X7_witness :
  consistent (exec (login_lines 3 ["LOGIN alice"; "LOGIN carol"]) lobby_and_guest).
Proof.
  assert (K : consistent lobby_and_guest).
  { intros c u. unfold lobby_and_guest. cbn [clients usernames].
    destruct c as [|[|[|c]]]; cbn; intros G; try discriminate;
      injection G as <-; reflexivity. }
  exact (proj1 (X7_login_keeps_names_unique
                  3 ["LOGIN alice"; "LOGIN carol"] lobby_and_guest K)).
Defined.

Lemma evict_all_consistent (l : list (Conn * option string)) (w : World) :
  NoDup (map fst l) ->
  (forall c u, In (c, u) l -> u = Dict.get c (clients w)) ->
  Dict.wf (clients w) -> consistent w ->
  consistent (exec (for_each l evict) w).
Proof.
  revert w. induction l as [|[c username] l IH]; intros w ND Snap Wc K;
    [exact K|].
  cbn [map fst] in ND. inversion ND as [|? ? Nc ND']; subst.
  unfold exec in *. cbn [for_each]. unfold bind.
  destruct (evict_spec c username w) as (w1 & -> & C & U & _).
  assert (E : username = Dict.get c (clients w)) by (apply Snap; now left).
  apply IH.
  - exact ND'.
  - intros c' u' I. rewrite C, get_del_other.
    + apply Snap. now right.
    + intros ->. apply Nc. apply in_map_iff. exists (c', u'). now split.
  - rewrite C. now apply wf_del.
  - apply (consistent_unbind c w w1 Wc K C). now rewrite <- E.
Qed.

(** X8.  Teardown with the name the session has, and a reaper cycle,
    keep the binding of names to sockets intact: afterwards every name left
    in [clients] is still bound in [usernames] to its own socket, so names
    stay unique. *)
Theorem X8_teardown_and_reaper_keep_names_unique :
  forall (conn : Conn) (now : Timestamp) (w : World),
    Dict.wf (clients w) -> Dict.wf (last_activity w) -> consistent w ->
    consistent (exec (_remove_client conn (Dict.get conn (clients w))) w)
    /\ consistent (exec (reaper_cycle now) w).
Proof.
  intros conn now w Wc Wl K. split.
  - unfold exec.
    destruct (_remove_client_spec conn (Dict.get conn (clients w)) w)
      as (w1 & -> & C & U & _).
    exact (consistent_unbind conn w w1 Wc K C U).
  - unfold exec, reaper_cycle, bind. rewrite clients_to_remove_run.
    apply evict_all_consistent; [now apply idle_sessions_conns | | exact Wc | exact K].
    intros c u I. unfold idle_sessions in I. apply in_map_iff in I.
    destruct I as (p & E & _). now injection E as <- <-.
Qed.

Lemma X8_witness :
  consistent (exec (reaper_cycle 70%Z) lobby_and_guest).
Proof.
  assert (Wc : Dict.wf (clients lobby_and_guest))
    by (repeat constructor; simpl; intuition discriminate).
  assert (Wl : Dict.wf (last_activity lobby_and_guest))
    by (repeat constructor; simpl; intuition discriminate).
  assert (K : consistent lobby_and_guest).
  { intros c u. unfold lobby_and_guest. cbn [clients usernames].
    destruct c as [|[|[|c]]]; cbn; intros G; try discriminate;
      injection G as <-; reflexivity. }
  exact (proj2 (X8_teardown_and_reaper_keep_names_unique
                  1 70%Z lobby_and_guest Wc Wl K)).
Defined.

Lemma login_line_free_name (conn : Conn) (line : string) (w : World) :
  startswith "LOGIN " line = true ->
  truthy (strip (slice_from 6 line)) = true ->
  Dict.get (strip (slice_from 6 line)) (usernames w) = None ->
  exists w',
    login_line conn line w = (Normal (Some (strip (slice_from 6 line))), w')
    /\ clients w' = Dict.set conn (strip (slice_from 6 line)) (clients w)
    /\ usernames w' = Dict.set (strip (slice_from 6 line)) conn (usernames w).
Proof.
  intros P T Free. rewrite login_line_run, P. cbv zeta. rewrite T. cbn [negb].
  unfold Dict.mem. rewrite Free.
  eexists. split; [reflexivity|].
  set (w1 := set_usernames _ _).
  destruct (after_send_fields conn "OK" w1) as (C & U & _).
  rewrite C, U. split; reflexivity.
Qed.

(** X9.  A second teardown that comes late takes the name away from its
    new owner.  The session on [conn] is torn down (by the reaper, say);
    another connection [conn'] logs in under the same name; the handler of
    [conn] then runs its own teardown with that name, which deletes the
    name from [usernames] although it now belongs to [conn'].  The name is
    free again, a third connection [conn''] can take it, and two sockets in
    [clients] carry the same name. *)
Theorem X9_late_teardown_frees_a_name_in_use :
  forall (conn conn' conn'' : Conn) (line : string) (w : World),
    Dict.wf (usernames w) ->
    conn <> conn' -> conn' <> conn'' ->
    startswith "LOGIN " line = true ->
    truthy (strip (slice_from 6 line)) = true ->
    let name := strip (slice_from 6 line) in
    let w1 := exec (_remove_client conn (Some name) ;;
                    login_line conn' line ;;
                    _remove_client conn (Some name)) w in
    let w2 := exec (login_line conn'' line) w1 in
    (Dict.get conn' (clients w1) = Some name
     /\ Dict.get name (usernames w1) = None)
    /\ result (login_line conn'' line) w1 = Normal (Some name)
    /\ Dict.get conn' (clients w2) = Some name
    /\ Dict.get conn'' (clients w2) = Some name.
Proof.
  intros conn conn' conn'' line w Wu N1 N2 P T name w1 w2.
  assert (Tn : named (Some name) = Some name)
    by (unfold named; fold name in T; now rewrite T).
  assert (E1 : exists v,
             w1 = v
             /\ Dict.get conn' (clients v) = Some name
             /\ Dict.get name (usernames v) = None).
  { subst w1. unfold exec, bind.
    destruct (_remove_client_spec conn (Some name) w)
      as (wa & -> & _ & Ua & _).
    rewrite Tn in Ua.
    assert (Fa : Dict.get name (usernames wa) = None)
      by (rewrite Ua; now apply get_del_same).
    destruct (login_line_free_name conn' line wa P T Fa)
      as (wb & -> & Cb & Ub). fold name in Cb, Ub.
    destruct (_remove_client_spec conn (Some name) wb)
      as (wc & -> & Cc & Uc & _).
    rewrite Tn in Uc. cbn [snd]. exists wc. split; [reflexivity|]. split.
    - rewrite Cc, Cb, get_del_other by exact N1. apply get_set_same.
    - rewrite Uc. apply get_del_same. rewrite Ub. apply wf_set.
      rewrite Ua. now apply wf_del. }
  destruct E1 as (v & -> & G1 & F1). split; [now split|].
  subst w2. unfold result, exec.
  destruct (login_line_free_name conn'' line v P T F1) as (vd & -> & Cd & _).
  fold name in Cd. cbn [fst snd]. split; [reflexivity|].
  rewrite Cd. split.
  - rewrite get_set_other by congruence. exact G1.
  - apply get_set_same.
Qed.

(** X9 at a concrete run: alice (socket 1) is torn down, socket 3 logs
    in as alice, socket 1 is torn down again, socket 4 logs in as alice. *)
Lemma X9_witness :
  let w1 := exec (_remove_client 1 (Some "alice") ;;
                  login_line 3 "LOGIN alice" ;;
                  _remove_client 1 (Some "alice")) lobby_and_guest in
  Dict.get 3 (clients (exec (login_line 4 "LOGIN alice") w1)) = Some "alice"
  /\ Dict.get 4 (clients (exec (login_line 4 "LOGIN alice") w1)) = Some "alice".
Proof.
  assert (Wu : Dict.wf (usernames lobby_and_guest))
    by (repeat constructor; simpl; intuition discriminate).
  pose proof (X9_late_teardown_frees_a_name_in_use
                1 3 4 "LOGIN alice" lobby_and_guest Wu
                ltac:(discriminate) ltac:(discriminate) eq_refl eq_refl) as H.
  cbv zeta in H. destruct H as (_ & _ & A & B). exact (conj A B).
Defined.

(* ================================================================== *)
(** ** Further properties: broadcast *)

Lemma memb_filter (f : Conn -> bool) (l : list Conn) (c : Conn) :
  memb c (filter f l) = memb c l && f c.
Proof.
  induction l as [|x l IH]; [reflexivity|]. cbn [filter memb].
  change (eqb c x) with (Nat.eqb c x).
  destruct (f x) eqn:Fx; cbn [memb]; change (eqb c x) with (Nat.eqb c x);
    rewrite IH; destruct (Nat.eqb_spec c x) as [->|Ne]; cbn [orb];
    rewrite ?Fx, ?andb_true_r, ?andb_false_r; reflexivity.
Qed.

(** X10.  [_broadcast] never raises and changes nothing in the server.
    What a socket receives from it depends on that socket alone: a socket
    that is in [clients], is not the excluded one and is usable receives the
    line exactly once; any other socket receives nothing.  So a recipient
    whose [sendall] fails does not keep the line from the recipients after
    it. *)
Theorem X10_broadcast_reaches_each_usable_client_once :
  forall (message : string) (exclude : option Conn) (w : World) (c : Conn),
    Dict.wf (clients w) ->
    let w' := exec (_broadcast message exclude) w in
    result (_broadcast message exclude) w = Normal tt
    /\ server_state w' = server_state w
    /\ inbox c w'
       = inbox c w
         ++ if memb c (Dict.keys (clients w)) && differs c exclude && sock_ok w c
            then [wire_line message] else [].
Proof.
  intros message exclude w c Wc w'. subst w'. unfold result, exec.
  destruct (_broadcast_spec message exclude w) as (w' & -> & S & W).
  cbn [fst snd]. split; [reflexivity|]. split; [exact S|].
  unfold inbox. rewrite W, filter_app, map_app. f_equal.
  rewrite (broadcast_inbox (message ++ String LF "") (sock_ok w)
             (filter (fun x => differs x exclude) (Dict.keys (clients w))) c)
    by (apply NoDup_filter; exact Wc).
  now rewrite memb_filter.
Qed.

(** X10 at a concrete broadcast over [lobby_alice_gone]: alice's socket is
    dead, bob still gets the line. *)
Lemma X10_witness :
  inbox 2 (exec (_broadcast "INFO carol disconnected" None) lobby_alice_gone)
  = [wire_line "INFO carol disconnected"]
  /\ inbox 1 (exec (_broadcast "INFO carol disconnected" None) lobby_alice_gone)
     = [].
Proof.
  assert (Wc : Dict.wf (clients lobby_alice_gone))
    by (repeat constructor; simpl; intuition discriminate).
  pose proof (X10_broadcast_reaches_each_usable_client_once
                "INFO carol disconnected" None lobby_alice_gone 2 Wc) as A.
  pose proof (X10_broadcast_reaches_each_usable_client_once
                "INFO carol disconnected" None lobby_alice_gone 1 Wc) as B.
  cbv zeta in A, B. destruct A as (_ & _ & A). destruct B as (_ & _ & B).
  exact (conj A B).
Defined.

(* ================================================================== *)
(** ** Further properties: the reaper and active sessions *)

Lemma items_get {K V} `{EqDec K} (d : Dict.t K V) (k : K) (v : V) :
  Dict.wf d -> In (k, v) (Dict.items d) -> Dict.get k d = Some v.
Proof.
  unfold Dict.wf, Dict.items, Dict.keys.
  induction d as [|[k0 v0] d IH]; cbn [map fst In Dict.get]; [tauto|].
  intros ND I. inversion ND as [|? ? N ND']; subst.
  destruct I as [E|I].
  - injection E as -> ->. now rewrite eqb_refl.
  - destruct (eqb_spec k k0) as [->|Ne]; [|now apply IH].
    exfalso. apply N. apply in_map_iff. exists (k0, v). now split.
Qed.

(** A session that is not idle is not touched by a reaper cycle. *)
Lemma reaper_spares_active (now : Timestamp) (w : World) (c : Conn)
    (last : Timestamp) :
  registry_wf w ->
  Dict.get c (last_activity w) = Some last ->
  (now - last <= idle_timeout w)%Z ->
  result (reaper_cycle now) w = Normal tt
  /\ Dict.get c (last_activity (exec (reaper_cycle now) w)) = Some last
  /\ Dict.get c (clients (exec (reaper_cycle now) w)) = Dict.get c (clients w)
  /\ memb c (closed (exec (reaper_cycle now) w)) = memb c (closed w).
Proof.
  intros (Wc & Wu & Wl) G Age.
  assert (Out : memb c (map fst (idle_sessions now w)) = false).
  { destruct (memb c (map fst (idle_sessions now w))) eqn:E; [|reflexivity].
    exfalso. apply memb_In in E. unfold idle_sessions in E.
    rewrite map_map in E. cbn [fst] in E. apply in_map_iff in E.
    destruct E as ([c' last'] & <- & I). apply filter_In in I.
    destruct I as [I T]. cbn [fst snd] in *.
    apply (items_get _ _ _ Wl) in I. rewrite G in I. injection I as <-.
    unfold is_idle in T. apply Z.ltb_lt in T. lia. }
  unfold result, exec, reaper_cycle, bind. rewrite clients_to_remove_run.
  destruct (evict_all_spec (idle_sessions now w) w
              (idle_sessions_conns now w Wl) Wc Wu Wl)
    as (w' & ps & -> & _ & _ & C & L & _ & Cl & _).
  cbn [fst snd]. rewrite C, L, Cl, Out, G. repeat split.
Qed.

(** X11.  A reaper cycle leaves every session alone whose last activity
    is at most the idle timeout ago (an age equal to the timeout is not
    idle): its [last_activity] and [clients] entries are as before and its
    socket is not closed by the cycle. *)
Theorem X11_reaper_spares_active_sessions :
  forall (now : Timestamp) (w : World) (c : Conn) (last : Timestamp),
    registry_wf w ->
    Dict.get c (last_activity w) = Some last ->
    (now - last <= idle_timeout w)%Z ->
    let w' := exec (reaper_cycle now) w in
    result (reaper_cycle now) w = Normal tt
    /\ Dict.get c (last_activity w') = Some last
    /\ Dict.get c (clients w') = Dict.get c (clients w)
    /\ memb c (closed w') = memb c (closed w).
Proof. intros now w c last Wf G Age w'. now apply reaper_spares_active. Qed.

Lemma lobby_and_guest_wf : registry_wf lobby_and_guest.
Proof. repeat split; repeat constructor; simpl; intuition discriminate. Qed.

(** X11 at a concrete cycle: at time 110 bob (last heard of at 50) is
    exactly at the timeout of 60 and stays. *)
Lemma X11_witness :
  Dict.get 2 (clients (exec (reaper_cycle 110%Z) lobby_and_guest)) = Some "bob"
  /\ memb 2 (closed (exec (reaper_cycle 110%Z) lobby_and_guest)) = false.
Proof.
  pose proof (X11_reaper_spares_active_sessions
                110%Z lobby_and_guest 2 50%Z lobby_and_guest_wf eq_refl
                ltac:(cbn; lia)) as H.
  cbv zeta in H. destruct H as (_ & _ & A & B). exact (conj A B).
Defined.

Lemma client_iter_data_spec (conn : Conn) (username buffer data : string)
    (now : Timestamp) (w : World) :
  exists rest w1,
    client_iter conn username (RecvData data now) buffer w
    = (Normal (Next rest), w1)
    /\ server_state w1
       = server_state (set_last_activity (Dict.set conn now) w).
Proof.
  unfold client_iter, try_except, recv, bind, ret, touch, with_lock, modify.
  cbv beta iota.
  destruct (split_lines (buffer ++ data)) as [lines rest].
  destruct (command_lines_state conn username lines
              (set_last_activity (Dict.set conn now) w)) as (w2 & -> & S).
  exists rest, w2. split; [reflexivity | exact S].
Qed.

(** X12.  A read keeps the session alive: after the main loop has
    received data at time [now], a reaper cycle at any time up to
    [now + idle_timeout] leaves the session in place, whatever the data
    were. *)
Theorem X12_read_keeps_session_alive :
  forall (conn : Conn) (username buffer data : string) (now t : Timestamp)
         (w : World),
    registry_wf w ->
    (t - now <= idle_timeout w)%Z ->
    let w1 := exec (client_iter conn username (RecvData data now) buffer) w in
    Dict.get conn (last_activity (exec (reaper_cycle t) w1)) = Some now
    /\ Dict.get conn (clients (exec (reaper_cycle t) w1))
       = Dict.get conn (clients w)
    /\ memb conn (closed (exec (reaper_cycle t) w1)) = memb conn (closed w).
Proof.
  intros conn username buffer data now t w Wf Age w1.
  pose proof (registry_wf_client_iter conn username (RecvData data now) buffer
                w Wf) as Wf1.
  pose proof (client_iter_stamps conn username buffer data now w) as St.
  fold w1 in Wf1, St. subst w1. unfold exec in *.
  destruct (client_iter_data_spec conn username buffer data now w)
    as (rest & w1 & E & S).
  rewrite E in *. cbn [snd] in *.
  unfold server_state in S. cbn [clients usernames last_activity idle_timeout
    closed broken set_last_activity] in S.
  injection S as C _ _ T Cl _.
  destruct (reaper_spares_active t w1 conn now Wf1 St)
    as (_ & A & B & D); [rewrite T; exact Age|].
  unfold exec in A, B, D. rewrite A, B, D, C, Cl. repeat split.
Qed.

(** X12 at a concrete run: bob sends a line at time 100; the cycle at
    time 160 leaves him in place. *)
Lemma X12_witness :
  let w1 := exec (client_iter 2 "bob" (RecvData (wire_line "PING") 100%Z) "")
                 lobby_and_guest in
  Dict.get 2 (last_activity (exec (reaper_cycle 160%Z) w1)) = Some 100%Z.
Proof.
  pose proof (X12_read_keeps_session_alive
                2 "bob" "" (wire_line "PING") 100%Z 160%Z lobby_and_guest
                lobby_and_guest_wf ltac:(cbn; lia)) as H.
  cbv zeta in H. exact (proj1 H).
Defined.

(* ================================================================== *)
(** ** Further properties: framing *)

Lemma no_LF_cons (c : ascii) (s : string) :
  Ascii.eqb c LF = false -> no_LF s -> no_LF (String c s).
Proof. unfold no_LF. cbn [split_once]. intros -> ->. reflexivity. Qed.

(** X13.  Splitting a buffer into lines loses nothing: the complete lines,
    each followed by a line feed, and then the rest, give back the buffer;
    no line and not the rest holds a line feed.  So the rest is exactly the
    incomplete last line, kept for the next read. *)
Theorem X13_split_lines_round_trip :
  forall (s : string),
    join_lines (fst (split_lines s)) (snd (split_lines s)) = s
    /\ Forall no_LF (fst (split_lines s))
    /\ no_LF (snd (split_lines s)).
Proof.
  induction s as [|c s (J & F & R)].
  { split; [reflexivity|]. split; [constructor | reflexivity]. }
  cbn [split_lines]. destruct (split_lines s) as [ls rest]. cbn [fst snd] in *.
  destruct (Ascii.eqb c LF) eqn:E.
  - apply Ascii.eqb_eq in E. subst c. cbn [fst snd join_lines append].
    split; [now rewrite J|]. split; [|exact R].
    constructor; [reflexivity | exact F].
  - destruct ls as [|l ls]; cbn [fst snd join_lines append] in *.
    + split; [now rewrite J|]. split; [constructor | now apply no_LF_cons].
    + inversion F as [|? ? Fl Fls]; subst.
      split; [reflexivity|]. split; [|exact R].
      constructor; [now apply no_LF_cons | exact Fls].
Qed.









(* ================================================================== *)
(** ** Further properties: the life of a handler *)

Lemma login_line_sockets (conn : Conn) (line : string) (w : World) :
  closed (snd (login_line conn line w)) = closed w
  /\ broken (snd (login_line conn line w)) = broken w
  /\ idle_timeout (snd (login_line conn line w)) = idle_timeout w.
Proof.
  rewrite login_line_run.
  assert (A : forall message v,
             closed (after_send conn message v) = closed v
             /\ broken (after_send conn message v) = broken v
             /\ idle_timeout (after_send conn message v) = idle_timeout v).
  { intros message v. pose proof (after_send_state conn message v) as S.
    unfold server_state in S. injection S as _ _ _ T C B. auto. }
  destruct (startswith "LOGIN " line); cbv zeta; [|apply A].
  destruct (negb (truthy (strip (slice_from 6 line)))); [apply A|].
  destruct (Dict.mem (strip (slice_from 6 line)) (usernames w)); [apply A|].
  cbn [snd]. set (v := set_usernames _ _).
  destruct (A "OK" v) as (-> & -> & ->). repeat split.
Qed.

Lemma login_lines_sockets (conn : Conn) (lines : list string) (w : World) :
  closed (exec (login_lines conn lines) w) = closed w
  /\ broken (exec (login_lines conn lines) w) = broken w
  /\ idle_timeout (exec (login_lines conn lines) w) = idle_timeout w.
Proof.
  revert w. induction lines as [|raw lines IH]; intros w; [repeat split|].
  unfold exec in *. cbn [login_lines].
  destruct (negb (truthy (strip raw))); [apply IH|].
  unfold bind. pose proof (login_line_sockets conn (strip raw) w) as S.
  destruct (login_line conn (strip raw) w) as [[[u|]|e] w1]; cbn [snd] in *;
    [exact S | | exact S].
  destruct (IH w1) as (C & B & T). destruct S as (C1 & B1 & T1).
  repeat split; congruence.
Qed.

Lemma login_phase_refl (conn : Conn) (w : World) : login_phase conn w None w.
Proof.
  unfold login_phase. do 3 (split; [reflexivity|]).
  split; [exists []; split; [symmetry; apply app_nil_r | constructor]|].
  split; [reflexivity|]. split; [tauto|]. split; reflexivity.
Qed.

Lemma login_phase_console (conn : Conn) (f : list string -> list string)
    (w : World) :
  login_phase conn w None (set_console f w).
Proof.
  unfold login_phase. do 3 (split; [reflexivity|]).
  split; [exists []; split; [symmetry; apply app_nil_r | constructor]|].
  split; [reflexivity|]. split; [tauto|]. split; reflexivity.
Qed.

Lemma login_phase_trans (conn : Conn) (w w1 w2 : World) (r : option string) :
  login_phase conn w None w1 -> login_phase conn w1 r w2 ->
  login_phase conn w r w2.
Proof.
  intros (C1 & B1 & T1 & (p1 & W1 & F1) & L1 & Wf1 & Cl1 & U1)
         (C2 & B2 & T2 & (p2 & W2 & F2) & L2 & Wf2 & R2).
  repeat (split; [congruence|]).
  split; [exists (p1 ++ p2); split;
          [rewrite W2, W1, app_assoc; reflexivity | now apply Forall_app]|].
  split; [intros c Ne; rewrite L2, L1; auto|].
  split; [tauto|].
  destruct r as [u|]; [destruct R2 as (T & C & U) | destruct R2 as (C & U)];
    repeat split; congruence.
Qed.

Lemma login_iter_phase (conn : Conn) (addr : string) (r : recv_result)
    (buffer : string) (w : World) :
  exists s w',
    login_iter conn addr r buffer w = (Normal s, w')
    /\ login_phase conn w (match s with Return u => u | Next _ => None end) w'.
Proof.
  destruct r as [data now| |e].
  - unfold login_iter, try_except, recv, bind, ret. rewrite touch_run.
    set (w1 := set_last_activity (Dict.set conn now) w).
    destruct (split_lines (buffer ++ data)) as [lines rest].
    pose proof (login_lines_spec conn lines w1) as P. unfold login_post in P.
    pose proof (login_lines_replies conn lines w1) as Rp.
    pose proof (login_lines_sockets conn lines w1) as Sk.
    pose proof (registry_wf_login_lines conn lines w1) as Wf.
    unfold exec in Rp, Sk, Wf.
    destruct (login_lines conn lines w1) as [[[u|]|e] w2]; [| |contradiction];
      cbn [snd] in *; destruct Sk as (C & B & T).
    + exists (Return (Some u)), w2. split; [reflexivity|].
      destruct P as (Tu & _ & Cu & Uu & Lu & _). unfold login_phase.
      split; [exact C|]. split; [exact B|]. split; [exact T|].
      split; [exact Rp|].
      split; [intros c Ne; rewrite Lu; unfold w1;
              cbn [last_activity set_last_activity];
              apply get_set_other; congruence|].
      split; [intros H; apply Wf; now apply registry_wf_touch|].
      split; [exact Tu|]. split; [exact Cu | exact Uu].
    + exists (Next rest), w2. split; [reflexivity|].
      unfold registry in P. injection P as Cu Uu Lu. unfold login_phase.
      split; [exact C|]. split; [exact B|]. split; [exact T|].
      split; [exact Rp|].
      split; [intros c Ne; rewrite Lu; unfold w1;
              cbn [last_activity set_last_activity];
              apply get_set_other; congruence|].
      split; [intros H; apply Wf; now apply registry_wf_touch|].
      split; [exact Cu | exact Uu].
  - exists (Return None), w. split; [reflexivity | apply login_phase_refl].
  - destruct e; eexists _, _; (split; [reflexivity|]);
      first [apply login_phase_refl | apply login_phase_console].
Qed.

Lemma _handle_login_phase (conn : Conn) (addr : string)
    (inputs : list recv_result) (buffer : string) (w : World) :
  exists r rest w',
    _handle_login conn addr inputs buffer w = (Normal (r, rest), w')
    /\ login_phase conn w r w'.
Proof.
  revert buffer w. induction inputs as [|i inputs IH]; intros buffer w.
  - exists None, [], w. split; [reflexivity | apply login_phase_refl].
  - cbn [_handle_login]. unfold bind.
    destruct (login_iter_phase conn addr i buffer w) as (s & w1 & -> & P1).
    destruct s as [u|buffer'].
    + exists u, inputs, w1. split; [reflexivity | exact P1].
    + destruct (IH buffer' w1) as (r & rest & w2 & -> & P2).
      exists r, rest, w2. split; [reflexivity|].
      exact (login_phase_trans conn w w1 w2 r P1 P2).
Qed.

Lemma command_phase_refl (conn : Conn) (w : World) : command_phase conn w w.
Proof.
  unfold command_phase. do 5 (split; [reflexivity|]).
  split; [intros; reflexivity | tauto].
Qed.

Lemma command_phase_trans (conn : Conn) (w w1 w2 : World) :
  command_phase conn w w1 -> command_phase conn w1 w2 -> command_phase conn w w2.
Proof.
  intros (C1 & U1 & Cl1 & B1 & T1 & L1 & Wf1) (C2 & U2 & Cl2 & B2 & T2 & L2 & Wf2).
  unfold command_phase. repeat (split; [congruence|]).
  split; [intros c Ne; rewrite L2, L1; auto | tauto].
Qed.

Lemma client_iter_phase (conn : Conn) (username : string) (r : recv_result)
    (buffer : string) (w : World) :
  exists s w',
    client_iter conn username r buffer w = (Normal s, w')
    /\ command_phase conn w w'.
Proof.
  destruct r as [data now| |e].
  - destruct (client_iter_data_spec conn username buffer data now w)
      as (rest & w1 & E & S).
    exists (Next rest), w1. split; [exact E|].
    pose proof (registry_wf_client_iter conn username (RecvData data now)
                  buffer w) as Wf.
    unfold exec in Wf. rewrite E in Wf. cbn [snd] in Wf.
    unfold server_state in S.
    cbn [clients usernames last_activity idle_timeout closed broken
         set_last_activity] in S.
    injection S as C U L T Cl B. unfold command_phase.
    repeat (split; [assumption|]).
    split; [intros c Ne; rewrite L; apply get_set_other; congruence | exact Wf].
  - exists (Return tt), w. split; [reflexivity | apply command_phase_refl].
  - destruct e; eexists _, _; (split; [reflexivity|]);
      unfold command_phase; do 5 (split; [reflexivity|]);
      (split; [intros; reflexivity | tauto]).
Qed.

Lemma client_loop_phase (conn : Conn) (username : string)
    (inputs : list recv_result) (buffer : string) (w : World) :
  exists w',
    client_loop conn username inputs buffer w = (Normal tt, w')
    /\ command_phase conn w w'.
Proof.
  revert buffer w. induction inputs as [|i inputs IH]; intros buffer w.
  - exists w. split; [reflexivity | apply command_phase_refl].
  - cbn [client_loop]. unfold bind.
    destruct (client_iter_phase conn username i buffer w) as (s & w1 & -> & P1).
    destruct s as [[]|buffer'].
    + exists w1. split; [reflexivity | exact P1].
    + destruct (IH buffer' w1) as (w2 & -> & P2).
      exists w2. split; [reflexivity|].
      exact (command_phase_trans conn w w1 w2 P1 P2).
Qed.

(** The handler up to its [finally]: the world it reaches, the name it
    tears down with, and what happened on the way. *)
Lemma _handle_client_body (conn : Conn) (addr : string) (now : Timestamp)
    (inputs : list recv_result) (w : World) :
  exists (username : option string) (rest : list recv_result) (w1 w2 : World),
    _handle_login conn addr inputs "" (exec (on_accept conn now) w)
    = (Normal (username, rest), w1)
    /\ login_phase conn (exec (on_accept conn now) w) username w1
    /\ match username with
       | Some u => command_phase conn w1 w2
       | None => w2 = set_closed (fun l => conn :: l) w1
       end
    /\ _handle_client conn addr now inputs w
       = _remove_client conn username w2.
Proof.
  unfold _handle_client, on_accept, exec. rewrite touch_run. cbn [snd].
  set (w0 := set_last_activity (Dict.set conn now) w).
  destruct (_handle_login_phase conn addr inputs "" w0)
    as (username & rest & w1 & E & P).
  unfold bind at 1. unfold try_except. unfold bind at 1. rewrite touch_run.
  fold w0. unfold bind at 1. rewrite E.
  destruct username as [u|].
  - assert (T : truthy u = true) by (destruct P as (_ & _ & _ & _ & _ & _ & T & _); exact T).
    rewrite T. unfold bind, print, modify.
    destruct (client_loop_phase conn u rest ""
                (set_console
                   (fun c => c ++ [("[SERVER] User '" ++ u ++ "' logged in from "
                                    ++ addr)%string]) w1))
      as (w2 & -> & Q).
    exists (Some u), rest, w1, w2. split; [reflexivity|]. split; [exact P|].
    split; [|reflexivity].
    destruct Q as (C & U & Cl & B & Ti & L & Wf). unfold command_phase.
    repeat (split; [assumption|]). exact Wf.
  - unfold bind, close, modify, ret.
    exists None, rest, w1, (set_closed (fun l => conn :: l) w1).
    split; [reflexivity|]. split; [exact P|]. split; reflexivity.
Qed.

Lemma evict_all_total (l : list (Conn * option string)) (w : World) :
  result (for_each l evict) w = Normal tt.
Proof.
  revert w. induction l as [|[c username] l IH]; intros w; [reflexivity|].
  unfold result in *. cbn [for_each]. unfold bind.
  destruct (evict_spec c username w) as (w1 & -> & _). apply IH.
Qed.

(** X15.  Neither thread body lets an exception escape: whatever the
    peer sends, whenever [recv] or [sendall] fails, and whatever the state
    of the server, a connection handler runs to its end and returns, and so
    does the reaper for as long as the server runs. *)
Theorem X15_handler_and_reaper_never_raise :
  forall (conn : Conn) (addr : string) (now : Timestamp)
         (inputs : list recv_result) (clock : list Timestamp) (w : World),
    result (_handle_client conn addr now inputs) w = Normal tt
    /\ result (_check_idle_clients clock) w = Normal tt.
Proof.
  intros conn addr now inputs clock w. split.
  - destruct (_handle_client_body conn addr now inputs w)
      as (username & rest & w1 & w2 & _ & _ & _ & E).
    unfold result. rewrite E.
    destruct (_remove_client_spec conn username w2) as (w' & -> & _).
    reflexivity.
  - revert w. induction clock as [|t clock IH]; intros w; [reflexivity|].
    unfold result in *. cbn [_check_idle_clients]. unfold bind at 1.
    pose proof (evict_all_total (idle_sessions t w) w) as R.
    unfold result, reaper_cycle, bind in *. rewrite clients_to_remove_run.
    destruct (for_each (idle_sessions t w) evict w) as [[[]|e] w1];
      [apply IH | discriminate].
Qed.

(** X16.  A handler always cleans up after itself.  However the
    connection ends (the peer leaves before or after login, a read fails,
    the server stops), when the handler returns the socket is closed, it has
    no entry in [clients] or [last_activity], and, if no name was bound to
    it before, none is bound to it now. *)
Theorem X16_handler_always_cleans_up :
  forall (conn : Conn) (addr : string) (now : Timestamp)
         (inputs : list recv_result) (w : World),
    registry_wf w ->
    (forall n, Dict.get n (usernames w) <> Some conn) ->
    let w' := exec (_handle_client conn addr now inputs) w in
    Dict.get conn (clients w') = None
    /\ Dict.get conn (last_activity w') = None
    /\ memb conn (closed w') = true
    /\ forall n, Dict.get n (usernames w') <> Some conn.
Proof.
  intros conn addr now inputs w Wf Free w'. subst w'.
  destruct (_handle_client_body conn addr now inputs w)
    as (username & rest & w1 & w2 & _ & P & Q & E).
  unfold exec. rewrite E.
  destruct (_remove_client_spec conn username w2)
    as (w' & -> & C & U & L & _ & Cl & _).
  cbn [snd].
  destruct P as (_ & _ & _ & _ & _ & Wf1 & R).
  unfold exec, on_accept in Wf1, R. rewrite touch_run in Wf1, R.
  cbn [snd clients usernames set_last_activity] in Wf1, R.
  specialize (Wf1 (registry_wf_touch conn now w Wf)).
  assert (W2 : registry_wf w2 /\ usernames w2 = usernames w1).
  { destruct username as [u|].
    - destruct Q as (_ & Uq & _ & _ & _ & _ & Wq). split; [now apply Wq | exact Uq].
    - subst w2. split; [exact Wf1 | reflexivity]. }
  destruct W2 as ((Wc2 & Wu2 & Wl2) & U2).
  rewrite C, L, Cl, U. cbn [memb]. change (eqb conn conn) with (Nat.eqb conn conn).
  rewrite Nat.eqb_refl.
  split; [now apply get_del_same|]. split; [now apply get_del_same|].
  split; [reflexivity|]. intros n.
  destruct username as [u|]; cbn [named].
  - destruct R as (T & _ & Uu). rewrite T.
    destruct (String.eqb_spec u n) as [->|Ne].
    + rewrite get_del_same by exact Wu2. discriminate.
    + rewrite get_del_other by exact Ne. rewrite U2, Uu.
      rewrite get_set_other by exact Ne. apply Free.
  - destruct R as (_ & Uu). rewrite U2, Uu. apply Free.
Qed.

Lemma lobby_no_name_for_3 :
  forall n, Dict.get n (usernames lobby) <> Some 3.
Proof.
  intros n. unfold lobby. cbn [usernames Dict.get].
  change (eqb n "alice") with (String.eqb n "alice").
  change (eqb n "bob") with (String.eqb n "bob").
  destruct (String.eqb n "alice"); [discriminate|].
  destruct (String.eqb n "bob"); discriminate.
Qed.

Lemma lobby_wf : registry_wf lobby.
Proof. repeat split; repeat constructor; simpl; intuition discriminate. Qed.

(** X16 at a concrete session: a client connects to [lobby] on socket 3,
    logs in as carol, and its connection is reset. *)
Lemma X16_witness :
  let w' := exec (_handle_client 3 "peer3" 60%Z
                    [RecvData (wire_line "LOGIN carol") 61%Z;
                     RecvRaises ConnectionResetError]) lobby in
  Dict.get 3 (clients w') = None /\ memb 3 (closed w') = true.
Proof.
  pose proof (X16_handler_always_cleans_up
                3 "peer3" 60%Z
                [RecvData (wire_line "LOGIN carol") 61%Z;
                 RecvRaises ConnectionResetError]
                lobby lobby_wf lobby_no_name_for_3) as H.
  cbv zeta in H. destruct H as (A & _ & B & _). exact (conj A B).
Defined.

(** X17.  A connection that ends before it has logged in leaves no trace
    on the others: the name tables are as they were, the other sessions'
    activity stamps are untouched, every packet sent during its lifetime
    went to the connection itself (and was one of the three login replies),
    and in particular nothing was announced to anybody. *)
Theorem X17_connection_that_never_logs_in_leaves_no_trace :
  forall (conn : Conn) (addr : string) (now : Timestamp)
         (inputs rest : list recv_result) (w w1 : World),
    registry_wf w ->
    Dict.get conn (clients w) = None ->
    _handle_login conn addr inputs "" (exec (on_accept conn now) w)
    = (Normal (None, rest), w1) ->
    let w' := exec (_handle_client conn addr now inputs) w in
    clients w' = clients w
    /\ usernames w' = usernames w
    /\ (forall c, c <> conn ->
                  Dict.get c (last_activity w') = Dict.get c (last_activity w))
    /\ Dict.get conn (last_activity w') = None
    /\ Forall (login_reply conn) (since w w').
Proof.
  intros conn addr now inputs rest w w1 Wf Fresh Hl w'. subst w'.
  destruct (_handle_client_body conn addr now inputs w)
    as (username & rest' & v1 & w2 & E1 & P & Q & E).
  rewrite Hl in E1. injection E1 as <- <- <-.
  unfold exec at 1 2 3 4 5. rewrite E.
  destruct (_remove_client_spec conn None w2)
    as (w' & -> & C & U & L & _ & _ & _ & W).
  cbn [snd named] in *. subst w2.
  destruct P as (_ & _ & _ & (ps & Wp & Fp) & Lp & Wf1 & Cp & Up).
  unfold exec, on_accept in Wp, Lp, Wf1, Cp, Up.
  rewrite touch_run in Wp, Lp, Wf1, Cp, Up.
  cbn [snd clients usernames wire last_activity set_last_activity] in *.
  specialize (Wf1 (registry_wf_touch conn now w Wf)).
  destruct Wf1 as (_ & _ & Wl1).
  rewrite C, U, L. cbn [clients usernames last_activity set_closed].
  split; [rewrite Cp; apply del_absent; exact Fresh|].
  split; [exact Up|].
  split; [intros c Ne; rewrite get_del_other by congruence;
          rewrite (Lp c Ne); apply get_set_other; congruence|].
  split; [now apply get_del_same|].
  rewrite (since_app w w' ps); [exact Fp|].
  rewrite W, app_nil_r. exact Wp.
Qed.

(** X17 at a concrete visit: a client connects to [lobby] on socket 3,
    tries to talk without logging in and leaves. *)
Lemma X17_witness :
  let w' := exec (_handle_client 3 "peer3" 60%Z
                    [RecvData (wire_line "MSG hello") 61%Z; RecvEOF]) lobby in
  clients w' = clients lobby /\ usernames w' = usernames lobby.
Proof.
  pose proof (X17_connection_that_never_logs_in_leaves_no_trace
                3 "peer3" 60%Z
                [RecvData (wire_line "MSG hello") 61%Z; RecvEOF] []
                lobby _ lobby_wf eq_refl eq_refl) as H.
  cbv zeta in H. destruct H as (A & B & _). exact (conj A B).
Defined.

(* ================================================================== *)
(** ** Further properties: teardown and direct messages *)

(** X18.  What one teardown does, in general.  It never raises; it
    removes the socket from [clients] and [last_activity] and closes it;
    with a non-empty name it removes that name from [usernames].  A client
    that remains (in [clients], another socket, usable) receives
    [INFO <name> disconnected] exactly once when the name is non-empty, and
    nothing when there is no name; the socket torn down receives nothing. *)
Theorem X18_teardown_removes_closes_and_notifies_the_rest :
  forall (conn : Conn) (username : option string) (w : World) (o : Conn),
    registry_wf w ->
    let w' := exec (_remove_client conn username) w in
    result (_remove_client conn username) w = Normal tt
    /\ Dict.get conn (clients w') = None
    /\ Dict.get conn (last_activity w') = None
    /\ memb conn (closed w') = true
    /\ match named username with
       | Some u => Dict.get u (usernames w') = None
       | None => usernames w' = usernames w
       end
    /\ inbox o w'
       = inbox o w
         ++ match named username with
            | Some u =>
                if memb o (Dict.keys (clients w)) && negb (Nat.eqb o conn)
                   && sock_ok w o
                then [wire_line ("INFO " ++ u ++ " disconnected")]
                else []
            | None => []
            end.
Proof.
  intros conn username w o (Wc & Wu & Wl) w'. subst w'. unfold result, exec.
  destruct (_remove_client_spec conn username w)
    as (w' & -> & C & U & L & _ & Cl & _ & W).
  cbn [fst snd]. split; [reflexivity|].
  rewrite C, L, Cl. cbn [memb]. change (eqb conn conn) with (Nat.eqb conn conn).
  rewrite Nat.eqb_refl.
  split; [now apply get_del_same|]. split; [now apply get_del_same|].
  split; [reflexivity|].
  unfold inbox. rewrite U, W, filter_app, map_app.
  destruct (named username) as [u|]; [|split; reflexivity].
  split; [now apply get_del_same|]. f_equal.
  rewrite broadcast_inbox by (apply wf_del; exact Wc).
  rewrite keys_del by exact Wc.
  rewrite (memb_filter (fun x => negb (eqb x conn)) (Dict.keys (clients w)) o).
  change (eqb o conn) with (Nat.eqb o conn).
  unfold wire_line. rewrite !append_assoc.
  destruct (memb o (Dict.keys (clients w))), (Nat.eqb o conn), (sock_ok w o);
    reflexivity.
Qed.

(** X18 at a concrete teardown: alice leaves [lobby_and_guest]. *)
Lemma X18_witness :
  inbox 2 (exec (_remove_client 1 (Some "alice")) lobby_and_guest)
  = [wire_line "INFO alice disconnected"]
  /\ inbox 1 (exec (_remove_client 1 (Some "alice")) lobby_and_guest) = [].
Proof.
  pose proof (X18_teardown_removes_closes_and_notifies_the_rest
                1 (Some "alice") lobby_and_guest 2 lobby_and_guest_wf) as A.
  pose proof (X18_teardown_removes_closes_and_notifies_the_rest
                1 (Some "alice") lobby_and_guest 1 lobby_and_guest_wf) as B.
  cbv zeta in A, B. destruct A as (_ & _ & _ & _ & _ & A).
  destruct B as (_ & _ & _ & _ & _ & B). exact (conj A B).
Defined.

(** X19.  Login, lookup and teardown fit together.  Once a connection
    has logged in under a free name, a direct message to that name from
    any sender is handed to that connection and to nobody else; once the
    connection has been torn down with that name, the same message is
    answered to the sender with [ERR user-not-found <name>]. *)
Theorem X19_dm_follows_login_and_teardown :
  forall (conn sender : Conn) (from_user line text : string) (w : World),
    Dict.wf (usernames w) ->
    startswith "LOGIN " line = true ->
    truthy (strip (slice_from 6 line)) = true ->
    Dict.get (strip (slice_from 6 line)) (usernames w) = None ->
    let name := strip (slice_from 6 line) in
    let w1 := exec (login_line conn line) w in
    let w2 := exec (_remove_client conn (Some name)) w1 in
    since w1 (exec (_send_private sender from_user name text) w1)
    = [Packet conn (wire_line ("DM " ++ from_user ++ " " ++ text))
              (sock_ok w conn)]
    /\ since w2 (exec (_send_private sender from_user name text) w2)
       = [Packet sender (wire_line ("ERR user-not-found " ++ name))
                 (sock_ok w2 sender)].
Proof.
  intros conn sender from_user line text w Wu P T Free name w1 w2.
  destruct (login_line_free_name conn line w P T Free) as (v1 & E1 & C1 & U1).
  fold name in E1, C1, U1.
  assert (Hw1 : w1 = v1) by (subst w1; unfold exec; now rewrite E1).
  assert (Ok1 : sock_ok v1 conn = sock_ok w conn).
  { rewrite login_line_run, P in E1. cbv zeta in E1. rewrite T in E1.
    cbn [negb] in E1. unfold Dict.mem in E1. rewrite Free in E1.
    injection E1 as <-.
    rewrite (sock_ok_state conn (after_send_state conn "OK" _)). reflexivity. }
  destruct (_remove_client_spec conn (Some name) v1)
    as (v2 & E2 & _ & U2 & _).
  assert (Hw2 : w2 = v2) by (subst w2; rewrite Hw1; unfold exec; now rewrite E2).
  rewrite Hw2, Hw1. clear Hw1 Hw2 w1 w2.
  unfold named in U2. fold name in T. rewrite T in U2.
  unfold exec. split.
  - destruct (_send_private_spec sender from_user name text v1) as (v & -> & S).
    cbn [snd]. rewrite (sends_since S), U1, get_set_same, Ok1.
    unfold wire_line. now rewrite !append_assoc.
  - destruct (_send_private_spec sender from_user name text v2) as (v & -> & S).
    cbn [snd]. rewrite (sends_since S), U2.
    rewrite get_del_same by (rewrite U1; now apply wf_set).
    reflexivity.
Qed.

(** X19 at a concrete run: the guest on socket 3 logs in as carol, gets
    a message from alice, and is gone when alice writes again. *)
Lemma X19_witness :
  let w1 := exec (login_line 3 "LOGIN carol") lobby_and_guest in
  let w2 := exec (_remove_client 3 (Some "carol")) w1 in
  since w1 (exec (_send_private 1 "alice" "carol" "hi") w1)
  = [Packet 3 (wire_line "DM alice hi") true]
  /\ since w2 (exec (_send_private 1 "alice" "carol" "hi") w2)
     = [Packet 1 (wire_line "ERR user-not-found carol") true].
Proof.
  assert (Wu : Dict.wf (usernames lobby_and_guest)) by apply lobby_and_guest_wf.
  pose proof (X19_dm_follows_login_and_teardown
                3 1 "alice" "LOGIN carol" "hi" lobby_and_guest Wu
                eq_refl eq_refl eq_refl) as H.
  cbv zeta in H. exact H.
Defined.

(** X20.  A direct message line, end to end.  For a line
    [DM <user> <text>] in which the user holds no space (and which has no
    blanks at either end, as every line the main loop dispatches), the
    target is [<user>] and the text is everything after the first space,
    inner blanks included: the one packet sent is [DM <sender> <text>] to
    the socket of [<user>], or [ERR user-not-found <user>] to the sender. *)
Theorem X20_dm_line_end_to_end :
  forall (conn : Conn) (username user text : string) (w : World),
    split_once SP user = None ->
    strip (user ++ " " ++ text) = (user ++ " " ++ text)%string ->
    since w (exec (_process_command conn username ("DM " ++ user ++ " " ++ text)) w)
    = [match Dict.get user (usernames w) with
       | Some target_conn =>
           Packet target_conn (wire_line ("DM " ++ username ++ " " ++ text))
                  (sock_ok w target_conn)
       | None =>
           Packet conn (wire_line ("ERR user-not-found " ++ user))
                  (sock_ok w conn)
       end].
Proof.
  intros conn username user text w N S.
  destruct (dm_line_parses user text N S) as [P Sp].
  unfold exec, _process_command.
  destruct (dm_is_not_msg_nor_who _ P) as [-> ->]. rewrite P, Sp.
  destruct (_send_private_spec conn username user text w) as (w' & -> & Sd).
  cbn [snd]. rewrite (sends_since Sd). f_equal.
  destruct (Dict.get user (usernames w)); unfold wire_line;
    rewrite ?append_assoc; cbn [append]; rewrite ?append_assoc; reflexivity.
Qed.

(** X20 at a concrete line: the text keeps its inner blanks. *)
Lemma X20_witness :
  since lobby (exec (_process_command 1 "alice" "DM bob  see  you") lobby)
  = [Packet 2 (wire_line "DM alice  see  you") true].
Proof.
  exact (X20_dm_line_end_to_end 1 "alice" "bob" " see  you" lobby
           eq_refl eq_refl).
Defined.

(* ================================================================== *)
(** ** Further properties: what a reaper cycle leaves behind *)

Lemma get_items {K V} `{EqDec K} (d : Dict.t K V) (k : K) (v : V) :
  Dict.get k d = Some v -> In (k, v) (Dict.items d).
Proof.
  unfold Dict.items. induction d as [|[k0 v0] d IH]; cbn [Dict.get In];
    [discriminate|].
  destruct (eqb_spec k k0) as [->|Ne].
  - intros E. injection E as ->. now left.
  - intros E. right. now apply IH.
Qed.

Lemma filter_nothing {X} (f : X -> bool) (l : list X) :
  (forall x, In x l -> f x = false) -> filter f l = [].
Proof.
  induction l as [|x l IH]; intros A; [reflexivity|]. cbn [filter].
  rewrite (A x) by now left. apply IH. intros y I. apply A. now right.
Qed.

Lemma evict_all_timeout (l : list (Conn * option string)) (w : World) :
  idle_timeout (exec (for_each l evict) w) = idle_timeout w.
Proof.
  revert w. induction l as [|[c username] l IH]; intros w; [reflexivity|].
  unfold exec in *. cbn [for_each]. unfold bind.
  destruct (evict_spec c username w) as (w1 & -> & _ & _ & _ & T & _).
  now rewrite IH.
Qed.

(** X21.  A reaper cycle is thorough: when it ends, no session is left
    in [last_activity] that is idle at the time of the cycle, so a second
    cycle at the same clock reading finds nothing to do and changes
    nothing. *)
Theorem X21_no_idle_session_left_after_cycle :
  forall (now : Timestamp) (w : World),
    registry_wf w ->
    let w' := exec (reaper_cycle now) w in
    idle_sessions now w' = []
    /\ reaper_cycle now w' = (Normal tt, w').
Proof.
  intros now w Wf w'.
  assert (Empty : idle_sessions now w' = []).
  { pose proof (registry_wf_evict_all (idle_sessions now w) w Wf) as Wf'.
    pose proof (evict_all_timeout (idle_sessions now w) w) as T.
    destruct Wf as (Wc & Wu & Wl).
    subst w'. unfold exec, reaper_cycle, bind in *.
    rewrite clients_to_remove_run.
    destruct (evict_all_spec (idle_sessions now w) w
                (idle_sessions_conns now w Wl) Wc Wu Wl)
      as (w' & ps & E & _ & _ & _ & L & _).
    rewrite E in *. cbn [snd] in *. destruct Wf' as (_ & _ & Wl').
    unfold idle_sessions at 1. rewrite filter_nothing; [reflexivity|].
    intros [c last] I. cbn [snd].
    destruct (is_idle now last (idle_timeout w')) eqn:Idle; [|reflexivity].
    exfalso. apply (items_get _ _ _ Wl') in I. rewrite L in I.
    destruct (memb c (map fst (idle_sessions now w))) eqn:M; [discriminate|].
    apply get_items in I.
    assert (In c (map fst (idle_sessions now w))) as Hin.
    { unfold idle_sessions. rewrite map_map. cbn [fst].
      apply in_map_iff. exists (c, last). split; [reflexivity|].
      apply filter_In. split; [exact I|]. cbn [snd]. now rewrite <- T. }
    apply memb_In in Hin. congruence. }
  split; [exact Empty|].
  unfold reaper_cycle, bind. rewrite clients_to_remove_run, Empty. reflexivity.
Qed.

(** X21 at a concrete cycle: time 70 over [lobby_and_guest]. *)
Lemma X21_witness :
  idle_sessions 70%Z (exec (reaper_cycle 70%Z) lobby_and_guest) = [].
Proof.
  exact (proj1 (X21_no_idle_session_left_after_cycle
                  70%Z lobby_and_guest lobby_and_guest_wf)).
Defined.
